(** * rosplane2: control-law core of [controller_example] and the parameter
    store of [param_manager]

    The development embeds two translation units of the repository:

    - [controller_example.cpp]: the saturation primitive, the five PID loops
      with anti-windup, the three flight-phase handlers and their exit hooks;
    - [param_manager.cpp]: the map of declared parameters and the callback
      that applies a vector of parameter changes.

    ** Numbers

    The C++ code computes on [float] and [double].  Every finite value of
    these types is a rational number, and the control law is designed over
    the reals, so a value is embedded as a rational [Q] and [+ - * /] are
    the exact operations: rounding, overflow, infinities and NaN are outside
    this model.  Decimal literals of the source ([3.14], [.01], [0.00001])
    are the same decimal literals in [Q]; a literal without fraction digits
    is written as the integer it denotes, so that the constant zero of the
    source is the [0] of [Q].  Equality of computed values is
    [Qeq] ([==]); Leibniz equality [=] is used where the code stores or
    returns an operand as it is.  The quotient by zero is [0] in [Q] while
    C++ yields an infinity or NaN: the general statements below hold
    whatever number such a quotient is, and the examples have non-zero
    divisors.

    Whether an output stays within its limits is not a property of the
    control law alone: it depends on overflow, on NaN and on the rounding
    of the limits to [float].  The module [Ieee] therefore embeds [sat] and
    the five loops a second time, over the binary32 and binary64 formats
    of [SpecFloat], and the bounds of the loop outputs are stated there.

    ** State

    The loops keep their previous error, integrator and filtered derivative
    in data members of the controller object.  The members form the record
    [state]; a member function is a function from the state before the call
    to its result and the state after the call, and the statements of the
    C++ body appear as successive [let]-bindings of [s]. *)

From Stdlib Require Import QArith Qabs Lqa Qfield.
From stdpp Require Import gmap strings list.
From stdpp Require Import sorting.
From Stdlib Require Import Floats.SpecFloat.

#[local] Open Scope Q_scope.

(** ** Comparisons and library functions on numbers *)

(** [x < y] as the boolean test of an [if]. *)
Definition Qltb (x y : Q) : bool :=
  (Qnum x * QDen y <? Qnum y * QDen x)%Z.

(** [fabs(x) >= eps], the gate of every anti-windup step. *)
Definition fabs_ge (x eps : Q) : bool := Qle_bool eps (Qabs x).

(** [copysign(x, y)] of [<cmath>]: the magnitude of [x] with the sign of
    [y].  The zero of [Q] is the positive zero. *)
Definition copysign (x y : Q) : Q :=
  if Qltb y 0 then - Qabs x else Qabs x.

(** The mathematical sign, [-1], [0] or [1]. *)
Definition sign (x : Q) : Q := inject_Z (Z.sgn (Qnum x)).

(** ** Data model *)

(** The members of [params_s] read by the control laws (the structure is
    declared in a header that the translation unit includes). *)
Record params_s := {
  alt_hz : Q;
  tau : Q;
  c_kp : Q; c_ki : Q; c_kd : Q;
  r_kp : Q; r_ki : Q; r_kd : Q;
  p_kp : Q; p_ki : Q; p_kd : Q;
  a_t_kp : Q; a_t_ki : Q; a_t_kd : Q;
  a_kp : Q; a_ki : Q; a_kd : Q;
  trim_e : Q; trim_t : Q; pwm_rad_e : Q;
  max_a : Q; max_e : Q; max_t : Q;
  max_takeoff_throttle : Q
}.

(** The members of [input_s] read by the handlers. *)
Record input_s := {
  Ts : Q;
  h : Q; va : Q;
  phi : Q; theta : Q; chi : Q;
  p : Q; q : Q; r : Q;
  Va_c : Q; h_c : Q; chi_c : Q;
  phi_ff : Q
}.

(** The members of [output_s]; every handler assigns all six. *)
Record output_s := {
  delta_e : Q; delta_a : Q; delta_r : Q; delta_t : Q;
  phi_c : Q; theta_c : Q
}.

(** The data members of [controller_example]: one group per loop. *)
Record state := {
  c_error_ : Q; c_integrator_ : Q;
  r_error_ : Q; r_integrator : Q;
  p_error_ : Q; p_integrator_ : Q;
  at_error_ : Q; at_integrator_ : Q; at_differentiator_ : Q;
  a_error_ : Q; a_integrator_ : Q; a_differentiator_ : Q
}.

(** Assignment to one member. *)
Definition set_c_error_ (v : Q) (s : state) : state :=
  {| c_error_ := v; c_integrator_ := c_integrator_ s; r_error_ := r_error_ s;
     r_integrator := r_integrator s; p_error_ := p_error_ s;
     p_integrator_ := p_integrator_ s; at_error_ := at_error_ s;
     at_integrator_ := at_integrator_ s;
     at_differentiator_ := at_differentiator_ s; a_error_ := a_error_ s;
     a_integrator_ := a_integrator_ s;
     a_differentiator_ := a_differentiator_ s |}.

Definition set_c_integrator_ (v : Q) (s : state) : state :=
  {| c_error_ := c_error_ s; c_integrator_ := v; r_error_ := r_error_ s;
     r_integrator := r_integrator s; p_error_ := p_error_ s;
     p_integrator_ := p_integrator_ s; at_error_ := at_error_ s;
     at_integrator_ := at_integrator_ s;
     at_differentiator_ := at_differentiator_ s; a_error_ := a_error_ s;
     a_integrator_ := a_integrator_ s;
     a_differentiator_ := a_differentiator_ s |}.

Definition set_r_error_ (v : Q) (s : state) : state :=
  {| c_error_ := c_error_ s; c_integrator_ := c_integrator_ s; r_error_ := v;
     r_integrator := r_integrator s; p_error_ := p_error_ s;
     p_integrator_ := p_integrator_ s; at_error_ := at_error_ s;
     at_integrator_ := at_integrator_ s;
     at_differentiator_ := at_differentiator_ s; a_error_ := a_error_ s;
     a_integrator_ := a_integrator_ s;
     a_differentiator_ := a_differentiator_ s |}.

Definition set_r_integrator (v : Q) (s : state) : state :=
  {| c_error_ := c_error_ s; c_integrator_ := c_integrator_ s;
     r_error_ := r_error_ s; r_integrator := v; p_error_ := p_error_ s;
     p_integrator_ := p_integrator_ s; at_error_ := at_error_ s;
     at_integrator_ := at_integrator_ s;
     at_differentiator_ := at_differentiator_ s; a_error_ := a_error_ s;
     a_integrator_ := a_integrator_ s;
     a_differentiator_ := a_differentiator_ s |}.

Definition set_p_error_ (v : Q) (s : state) : state :=
  {| c_error_ := c_error_ s; c_integrator_ := c_integrator_ s;
     r_error_ := r_error_ s; r_integrator := r_integrator s; p_error_ := v;
     p_integrator_ := p_integrator_ s; at_error_ := at_error_ s;
     at_integrator_ := at_integrator_ s;
     at_differentiator_ := at_differentiator_ s; a_error_ := a_error_ s;
     a_integrator_ := a_integrator_ s;
     a_differentiator_ := a_differentiator_ s |}.

Definition set_p_integrator_ (v : Q) (s : state) : state :=
  {| c_error_ := c_error_ s; c_integrator_ := c_integrator_ s;
     r_error_ := r_error_ s; r_integrator := r_integrator s;
     p_error_ := p_error_ s; p_integrator_ := v; at_error_ := at_error_ s;
     at_integrator_ := at_integrator_ s;
     at_differentiator_ := at_differentiator_ s; a_error_ := a_error_ s;
     a_integrator_ := a_integrator_ s;
     a_differentiator_ := a_differentiator_ s |}.

Definition set_at_error_ (v : Q) (s : state) : state :=
  {| c_error_ := c_error_ s; c_integrator_ := c_integrator_ s;
     r_error_ := r_error_ s; r_integrator := r_integrator s;
     p_error_ := p_error_ s; p_integrator_ := p_integrator_ s;
     at_error_ := v; at_integrator_ := at_integrator_ s;
     at_differentiator_ := at_differentiator_ s; a_error_ := a_error_ s;
     a_integrator_ := a_integrator_ s;
     a_differentiator_ := a_differentiator_ s |}.

Definition set_at_integrator_ (v : Q) (s : state) : state :=
  {| c_error_ := c_error_ s; c_integrator_ := c_integrator_ s;
     r_error_ := r_error_ s; r_integrator := r_integrator s;
     p_error_ := p_error_ s; p_integrator_ := p_integrator_ s;
     at_error_ := at_error_ s; at_integrator_ := v;
     at_differentiator_ := at_differentiator_ s; a_error_ := a_error_ s;
     a_integrator_ := a_integrator_ s;
     a_differentiator_ := a_differentiator_ s |}.

Definition set_at_differentiator_ (v : Q) (s : state) : state :=
  {| c_error_ := c_error_ s; c_integrator_ := c_integrator_ s;
     r_error_ := r_error_ s; r_integrator := r_integrator s;
     p_error_ := p_error_ s; p_integrator_ := p_integrator_ s;
     at_error_ := at_error_ s; at_integrator_ := at_integrator_ s;
     at_differentiator_ := v; a_error_ := a_error_ s;
     a_integrator_ := a_integrator_ s;
     a_differentiator_ := a_differentiator_ s |}.

Definition set_a_error_ (v : Q) (s : state) : state :=
  {| c_error_ := c_error_ s; c_integrator_ := c_integrator_ s;
     r_error_ := r_error_ s; r_integrator := r_integrator s;
     p_error_ := p_error_ s; p_integrator_ := p_integrator_ s;
     at_error_ := at_error_ s; at_integrator_ := at_integrator_ s;
     at_differentiator_ := at_differentiator_ s; a_error_ := v;
     a_integrator_ := a_integrator_ s;
     a_differentiator_ := a_differentiator_ s |}.

Definition set_a_integrator_ (v : Q) (s : state) : state :=
  {| c_error_ := c_error_ s; c_integrator_ := c_integrator_ s;
     r_error_ := r_error_ s; r_integrator := r_integrator s;
     p_error_ := p_error_ s; p_integrator_ := p_integrator_ s;
     at_error_ := at_error_ s; at_integrator_ := at_integrator_ s;
     at_differentiator_ := at_differentiator_ s; a_error_ := a_error_ s;
     a_integrator_ := v; a_differentiator_ := a_differentiator_ s |}.

Definition set_a_differentiator_ (v : Q) (s : state) : state :=
  {| c_error_ := c_error_ s; c_integrator_ := c_integrator_ s;
     r_error_ := r_error_ s; r_integrator := r_integrator s;
     p_error_ := p_error_ s; p_integrator_ := p_integrator_ s;
     at_error_ := at_error_ s; at_integrator_ := at_integrator_ s;
     at_differentiator_ := at_differentiator_ s; a_error_ := a_error_ s;
     a_integrator_ := a_integrator_ s; a_differentiator_ := v |}.

(** ** [controller_example.cpp] *)

(** The constructor body.  The data members are declared in the class
    header, which the translation unit only includes; the content of the
    object before the body runs is therefore the argument [s], and the body
    assigns six members. *)
Definition controller_example (s : state) : state :=
  let s := set_c_error_ 0 s in
  let s := set_c_integrator_ 0 s in
  let s := set_r_error_ 0 s in
  let s := set_r_integrator 0 s in
  let s := set_p_error_ 0 s in
  let s := set_p_integrator_ 0 s in
  s.

(** [sat(value, up_limit, low_limit)]. *)
Definition sat (value up_limit low_limit : Q) : Q :=
  if Qltb up_limit value then up_limit
  else if Qltb value low_limit then low_limit
  else value.

Definition course_hold (chi_c chi phi_ff r : Q) (params : params_s) (Ts : Q)
    (s : state) : Q * state :=
  let error := chi_c - chi in
  let s := set_c_integrator_ (c_integrator_ s + (Ts / 2) * (error + c_error_ s)) s in
  let up := c_kp params * error in
  let ui := c_ki params * c_integrator_ s in
  let ud := c_kd params * r in
  let phi_c := sat (up + ui + ud + phi_ff) (15 * 3.14 / 180) (-15 * 3.14 / 180) in
  let s :=
    if fabs_ge (c_ki params) 0.00001 then
      let phi_c_unsat := up + ui + ud + phi_ff in
      set_c_integrator_ (c_integrator_ s + (Ts / c_ki params) * (phi_c - phi_c_unsat)) s
    else s in
  let s := set_c_error_ error s in
  (phi_c, s).

Definition roll_hold (phi_c phi p : Q) (params : params_s) (Ts : Q)
    (s : state) : Q * state :=
  let error := phi_c - phi in
  let s := set_r_integrator (r_integrator s + (Ts / 2) * (error + r_error_ s)) s in
  let up := r_kp params * error in
  let ui := r_ki params * r_integrator s in
  let ud := r_kd params * p in
  let delta_a := sat (up + ui - ud) (max_a params) (- max_a params) in
  let s :=
    if fabs_ge (r_ki params) 0.00001 then
      let delta_a_unsat := up + ui - ud in
      set_r_integrator (r_integrator s + (Ts / r_ki params) * (delta_a - delta_a_unsat)) s
    else s in
  let s := set_r_error_ error s in
  (delta_a, s).

Definition pitch_hold (theta_c theta q : Q) (params : params_s) (Ts : Q)
    (s : state) : Q * state :=
  let error := theta_c - theta in
  let s := set_p_integrator_ (p_integrator_ s + (Ts / 2) * (error + p_error_ s)) s in
  let up := p_kp params * error in
  let ui := p_ki params * p_integrator_ s in
  let ud := p_kd params * q in
  let delta_e :=
    sat (trim_e params / pwm_rad_e params + up + ui - ud) (max_e params) (- max_e params) in
  let s :=
    if fabs_ge (p_ki params) 0.00001 then
      let delta_e_unsat := trim_e params / pwm_rad_e params + up + ui - ud in
      set_p_integrator_ (p_integrator_ s + (Ts / p_ki params) * (delta_e - delta_e_unsat)) s
    else s in
  let s := set_p_error_ error s in
  (- delta_e, s).

Definition airspeed_with_throttle_hold (Va_c Va : Q) (params : params_s) (Ts : Q)
    (s : state) : Q * state :=
  let error := Va_c - Va in
  let s := set_at_integrator_ (at_integrator_ s + (Ts / 2) * (error + at_error_ s)) s in
  let s :=
    set_at_differentiator_
      ((2 * tau params - Ts) / (2 * tau params + Ts) * at_differentiator_ s
       + (2 / (2 * tau params + Ts)) * (error - at_error_ s)) s in
  let up := a_t_kp params * error in
  let ui := a_t_ki params * at_integrator_ s in
  let ud := a_t_kd params * at_differentiator_ s in
  let delta_t := sat (trim_t params + up + ui + ud) (max_t params) 0 in
  let s :=
    if fabs_ge (a_t_ki params) 0.00001 then
      let delta_t_unsat := trim_t params + up + ui + ud in
      set_at_integrator_ (at_integrator_ s + (Ts / a_t_ki params) * (delta_t - delta_t_unsat)) s
    else s in
  let s := set_at_error_ error s in
  (delta_t, s).

Definition altitude_hold_control (h_c h : Q) (params : params_s) (Ts : Q)
    (s : state) : Q * state :=
  let error := h_c - h in
  let s :=
    if Qltb (- alt_hz params + 0.01) error && Qltb error (alt_hz params - 0.01) then
      set_a_integrator_ (a_integrator_ s + (Ts / 2) * (error + a_error_ s)) s
    else
      set_a_integrator_ 0 s in
  let s :=
    set_a_differentiator_
      ((2 * tau params - Ts) / (2 * tau params + Ts) * a_differentiator_ s
       + (2 / (2 * tau params + Ts)) * (error - a_error_ s)) s in
  let up := a_kp params * error in
  let ui := a_ki params * a_integrator_ s in
  let ud := a_kd params * a_differentiator_ s in
  let theta_c := sat (up + ui + ud) (10 * 3.14 / 180) (-10 * 3.14 / 180) in
  let s :=
    if fabs_ge (a_ki params) 0.00001 then
      let theta_c_unsat := up + ui + ud in
      set_a_integrator_ (a_integrator_ s + (Ts / a_ki params) * (theta_c - theta_c_unsat)) s
    else s in
  let s := set_at_error_ error s in
  (theta_c, s).

(** The local [adjusted_hc] of [climb], the altitude command that the
    handler hands to the altitude loop.  The source calls the unqualified
    [abs] on a [float]; it is read as the floating-point absolute value. *)
Definition climb_adjusted_hc (params : params_s) (input : input_s) : Q :=
  let max_alt := alt_hz params / 2 in
  if Qltb max_alt (Qabs (h_c input - h input)) then
    h input + copysign max_alt (h_c input - h input)
  else
    h_c input.

(** The local [adjusted_hc] of [altitude_hold]. *)
Definition altitude_hold_adjusted_hc (params : params_s) (input : input_s) : Q :=
  let max_alt := alt_hz params in
  if Qltb max_alt (Qabs (h_c input - h input)) then
    h input + copysign max_alt (h_c input - h input)
  else
    h_c input.

Definition take_off (params : params_s) (input : input_s) (s : state)
    : output_s * state :=
  let o_delta_r := 0 in
  let o_phi_c := 0 in
  let '(o_delta_a, s) := roll_hold o_phi_c (phi input) (p input) params (Ts input) s in
  let '(throttle, s) :=
    airspeed_with_throttle_hold (Va_c input) (va input) params (Ts input) s in
  let o_delta_t := sat throttle (max_takeoff_throttle params) 0 in
  let o_theta_c := 3 * 3.14 / 180 in
  let '(o_delta_e, s) := pitch_hold o_theta_c (theta input) (q input) params (Ts input) s in
  ({| delta_e := o_delta_e; delta_a := o_delta_a; delta_r := o_delta_r;
      delta_t := o_delta_t; phi_c := o_phi_c; theta_c := o_theta_c |}, s).

Definition take_off_exit (s : state) : state := s.

Definition climb (params : params_s) (input : input_s) (s : state)
    : output_s * state :=
  let adjusted_hc := climb_adjusted_hc params input in
  let '(o_delta_t, s) :=
    airspeed_with_throttle_hold (Va_c input) (va input) params (Ts input) s in
  let '(o_theta_c, s) := altitude_hold_control adjusted_hc (h input) params (Ts input) s in
  let '(o_delta_e, s) := pitch_hold o_theta_c (theta input) (q input) params (Ts input) s in
  let o_phi_c := 0 in
  let '(o_delta_a, s) := roll_hold o_phi_c (phi input) (p input) params (Ts input) s in
  let o_delta_r := 0 in
  ({| delta_e := o_delta_e; delta_a := o_delta_a; delta_r := o_delta_r;
      delta_t := o_delta_t; phi_c := o_phi_c; theta_c := o_theta_c |}, s).

Definition climb_exit (s : state) : state :=
  let s := set_at_error_ 0 s in
  let s := set_at_integrator_ 0 s in
  let s := set_at_differentiator_ 0 s in
  let s := set_a_error_ 0 s in
  let s := set_a_integrator_ 0 s in
  let s := set_a_differentiator_ 0 s in
  s.

Definition altitude_hold (params : params_s) (input : input_s) (s : state)
    : output_s * state :=
  let adjusted_hc := altitude_hold_adjusted_hc params input in
  let '(o_delta_t, s) :=
    airspeed_with_throttle_hold (Va_c input) (va input) params (Ts input) s in
  let '(o_theta_c, s) := altitude_hold_control adjusted_hc (h input) params (Ts input) s in
  let o_delta_r := 0 in
  let '(o_phi_c, s) :=
    course_hold (chi_c input) (chi input) (phi_ff input) (r input) params (Ts input) s in
  let '(o_delta_a, s) := roll_hold o_phi_c (phi input) (p input) params (Ts input) s in
  let '(o_delta_e, s) := pitch_hold o_theta_c (theta input) (q input) params (Ts input) s in
  ({| delta_e := o_delta_e; delta_a := o_delta_a; delta_r := o_delta_r;
      delta_t := o_delta_t; phi_c := o_phi_c; theta_c := o_theta_c |}, s).

Definition altitude_hold_exit (s : state) : state := set_c_integrator_ 0 s.

(** ** Quantities named by the properties of the control loops *)

(** [lo <= x <= hi]. *)
Definition in_range (lo hi x : Q) : Prop := lo <= x /\ x <= hi.

(** The bounds of the course and altitude loops, in radians as the source
    converts degrees ([3.14 / 180]). *)
Definition course_limit : Q := 15 * 3.14 / 180.
Definition altitude_limit : Q := 10 * 3.14 / 180.

(** The effort of each loop computed from a state, without clamping:
    proportional, integral, derivative and bias terms. *)
Definition course_effort (chi_c chi phi_ff r : Q) (params : params_s)
    (s : state) : Q :=
  c_kp params * (chi_c - chi) + c_ki params * c_integrator_ s
  + c_kd params * r + phi_ff.

Definition roll_effort (phi_c phi p : Q) (params : params_s) (s : state) : Q :=
  r_kp params * (phi_c - phi) + r_ki params * r_integrator s - r_kd params * p.

Definition pitch_effort (theta_c theta q : Q) (params : params_s)
    (s : state) : Q :=
  trim_e params / pwm_rad_e params + p_kp params * (theta_c - theta)
  + p_ki params * p_integrator_ s - p_kd params * q.

Definition airspeed_effort (Va_c Va : Q) (params : params_s) (s : state) : Q :=
  trim_t params + a_t_kp params * (Va_c - Va)
  + a_t_ki params * at_integrator_ s + a_t_kd params * at_differentiator_ s.

Definition altitude_effort (h_c h : Q) (params : params_s) (s : state) : Q :=
  a_kp params * (h_c - h) + a_ki params * a_integrator_ s
  + a_kd params * a_differentiator_ s.

(** The trapezoid rule, [integrator + (Ts/2) * (error + previous_error)]. *)
Definition trapezoid (integrator Ts error previous_error : Q) : Q :=
  integrator + (Ts / 2) * (error + previous_error).

(** The dirty derivative with time constant [tau]. *)
Definition dirty_derivative (tau Ts differentiator error previous_error : Q) : Q :=
  (2 * tau - Ts) / (2 * tau + Ts) * differentiator
  + (2 / (2 * tau + Ts)) * (error - previous_error).

(** The anti-windup step of a loop: from the integrator [integrator] after
    integration, the unsaturated effort [unsat] and the clamped effort
    [clamped], the integrator that the tick stores. *)
Definition anti_windup (ki Ts integrator unsat clamped : Q) : Q :=
  if fabs_ge ki 0.00001 then integrator + (Ts / ki) * (clamped - unsat)
  else integrator.

(** The effort [after], recomputed from the state that a tick stores, lies
    at the fraction [Ts] of the way from the unsaturated effort [unsat] to
    the clamped effort [clamped]. *)
Definition back_calculated (Ts unsat clamped after : Q) : Prop :=
  after == unsat + Ts * (clamped - unsat).

(** The unsaturated effort exceeds the bounds of the loop. *)
Definition saturates (unsat upper lower : Q) : Prop :=
  upper < unsat \/ unsat < lower.

(** The state of each loop after its integration and differentiation
    steps, before the effort is clamped: the unsaturated effort of a tick
    is the loop's effort in this state. *)
Definition course_integrated (chi_c chi Ts : Q) (s : state) : state :=
  set_c_integrator_ (trapezoid (c_integrator_ s) Ts (chi_c - chi) (c_error_ s)) s.

Definition roll_integrated (phi_c phi Ts : Q) (s : state) : state :=
  set_r_integrator (trapezoid (r_integrator s) Ts (phi_c - phi) (r_error_ s)) s.

Definition pitch_integrated (theta_c theta Ts : Q) (s : state) : state :=
  set_p_integrator_ (trapezoid (p_integrator_ s) Ts (theta_c - theta) (p_error_ s)) s.

Definition airspeed_integrated (Va_c Va : Q) (params : params_s) (Ts : Q)
    (s : state) : state :=
  set_at_differentiator_
    (dirty_derivative (tau params) Ts (at_differentiator_ s) (Va_c - Va) (at_error_ s))
    (set_at_integrator_ (trapezoid (at_integrator_ s) Ts (Va_c - Va) (at_error_ s)) s).

(** The altitude error lies strictly inside the deadband of the hold zone:
    its magnitude is below [alt_hz - 0.01]. *)
Definition in_deadband (params : params_s) (error : Q) : bool :=
  Qltb (Qabs error) (alt_hz params - 0.01).

Definition altitude_integrated (h_c h : Q) (params : params_s) (Ts : Q)
    (s : state) : state :=
  set_a_differentiator_
    (dirty_derivative (tau params) Ts (a_differentiator_ s) (h_c - h) (a_error_ s))
    (set_a_integrator_
       (if in_deadband params (h_c - h)
        then trapezoid (a_integrator_ s) Ts (h_c - h) (a_error_ s)
        else 0) s).

(** [params] with another general throttle maximum. *)
Definition with_max_t (m : Q) (params : params_s) : params_s :=
  {| alt_hz := alt_hz params; tau := tau params;
     c_kp := c_kp params; c_ki := c_ki params; c_kd := c_kd params;
     r_kp := r_kp params; r_ki := r_ki params; r_kd := r_kd params;
     p_kp := p_kp params; p_ki := p_ki params; p_kd := p_kd params;
     a_t_kp := a_t_kp params; a_t_ki := a_t_ki params; a_t_kd := a_t_kd params;
     a_kp := a_kp params; a_ki := a_ki params; a_kd := a_kd params;
     trim_e := trim_e params; trim_t := trim_t params;
     pwm_rad_e := pwm_rad_e params;
     max_a := max_a params; max_e := max_e params; max_t := m;
     max_takeoff_throttle := max_takeoff_throttle params |}.

(** Sample values for the examples: all state at zero, unit gains. *)
Definition zero_state : state :=
  {| c_error_ := 0; c_integrator_ := 0; r_error_ := 0; r_integrator := 0;
     p_error_ := 0; p_integrator_ := 0;
     at_error_ := 0; at_integrator_ := 0; at_differentiator_ := 0;
     a_error_ := 0; a_integrator_ := 0; a_differentiator_ := 0 |}.

Definition sample_params : params_s :=
  {| alt_hz := 10; tau := 5;
     c_kp := 1; c_ki := 1; c_kd := 0;
     r_kp := 1; r_ki := 1; r_kd := 0;
     p_kp := 1; p_ki := 1; p_kd := 0;
     a_t_kp := 1; a_t_ki := 1; a_t_kd := 0;
     a_kp := 1; a_ki := 0; a_kd := 0;
     trim_e := 0; trim_t := 0.5; pwm_rad_e := 1;
     max_a := 0.5; max_e := 0.5; max_t := 1;
     max_takeoff_throttle := 0.8 |}.

Definition sample_input : input_s :=
  {| Ts := 0.01; h := 0; va := 0; phi := 0; theta := 0; chi := 0;
     p := 0; q := 0; r := 0; Va_c := 1; h_c := 20; chi_c := 1; phi_ff := 0 |}.

(** ** [param_manager.cpp] *)

(** The alternatives of the variant held by [params_]: the four value types
    of the [declare_param]/[declare_int] overloads and of the getters. *)
Inductive param_variant :=
  | v_double (d : Q)
  | v_bool (b : bool)
  | v_int64 (z : Z)
  | v_string (str : string).

(** [rclcpp::ParameterType]. *)
Inductive ParameterType :=
  | PARAMETER_NOT_SET
  | PARAMETER_BOOL
  | PARAMETER_INTEGER
  | PARAMETER_DOUBLE
  | PARAMETER_STRING
  | PARAMETER_BYTE_ARRAY
  | PARAMETER_BOOL_ARRAY
  | PARAMETER_INTEGER_ARRAY
  | PARAMETER_DOUBLE_ARRAY
  | PARAMETER_STRING_ARRAY.

(** The value carried by an [rclcpp::Parameter], one alternative per type. *)
Inductive ParameterValue :=
  | not_set
  | bool_value (b : bool)
  | integer_value (z : Z)
  | double_value (d : Q)
  | string_value (str : string)
  | byte_array_value (l : list Z)
  | bool_array_value (l : list bool)
  | integer_array_value (l : list Z)
  | double_array_value (l : list Q)
  | string_array_value (l : list string).

Record rclcpp_Parameter := {
  get_name : string;
  get_parameter_value : ParameterValue
}.

Definition get_type (param : rclcpp_Parameter) : ParameterType :=
  match get_parameter_value param with
  | not_set => PARAMETER_NOT_SET
  | bool_value _ => PARAMETER_BOOL
  | integer_value _ => PARAMETER_INTEGER
  | double_value _ => PARAMETER_DOUBLE
  | string_value _ => PARAMETER_STRING
  | byte_array_value _ => PARAMETER_BYTE_ARRAY
  | bool_array_value _ => PARAMETER_BOOL_ARRAY
  | integer_array_value _ => PARAMETER_INTEGER_ARRAY
  | double_array_value _ => PARAMETER_DOUBLE_ARRAY
  | string_array_value _ => PARAMETER_STRING_ARRAY
  end.

(** [std::to_string] of the numeric value of a parameter type. *)
Definition to_string (t : ParameterType) : string :=
  match t with
  | PARAMETER_NOT_SET => "0"
  | PARAMETER_BOOL => "1"
  | PARAMETER_INTEGER => "2"
  | PARAMETER_DOUBLE => "3"
  | PARAMETER_STRING => "4"
  | PARAMETER_BYTE_ARRAY => "5"
  | PARAMETER_BOOL_ARRAY => "6"
  | PARAMETER_INTEGER_ARRAY => "7"
  | PARAMETER_DOUBLE_ARRAY => "8"
  | PARAMETER_STRING_ARRAY => "9"
  end.

(** The manager: the map [params_] from names to values, and the lines
    sent to the error stream of the node's logger, oldest first. *)
Record param_manager := {
  params_ : gmap string param_variant;
  error_stream : list string
}.

Definition set_params_ (m : gmap string param_variant) (pm : param_manager)
    : param_manager :=
  {| params_ := m; error_stream := error_stream pm |}.

Definition RCLCPP_ERROR_STREAM (line : string) (pm : param_manager)
    : param_manager :=
  {| params_ := params_ pm; error_stream := error_stream pm ++ [line] |}.

(** [declare_param] and [declare_int]: [params_[param_name] = value].  The
    declaration to the ROS 2 node is not part of the stored map. *)
Definition declare_param (param_name : string) (value : param_variant)
    (pm : param_manager) : param_manager :=
  set_params_ (<[param_name := value]> (params_ pm)) pm.

(** A name is declared when it is a key of [params_]. *)
Definition declared (param_name : string) (pm : param_manager) : Prop :=
  is_Some (params_ pm !! param_name).

(** The body of the loop of [set_parameters_callback] after the name has
    been found: the chain of tests on the type of the parameter. *)
Definition store_parameter (param : rclcpp_Parameter) (pm : param_manager)
    : param_manager :=
  match get_parameter_value param with
  | double_value d => set_params_ (<[get_name param := v_double d]> (params_ pm)) pm
  | bool_value b => set_params_ (<[get_name param := v_bool b]> (params_ pm)) pm
  | integer_value z => set_params_ (<[get_name param := v_int64 z]> (params_ pm)) pm
  | string_value str => set_params_ (<[get_name param := v_string str]> (params_ pm)) pm
  | _ =>
      RCLCPP_ERROR_STREAM
        ("Unable to determine parameter type in controller. Type is "
         +:+ to_string (get_type param)) pm
  end.

Fixpoint set_parameters_callback (parameters : list rclcpp_Parameter)
    (pm : param_manager) : bool * param_manager :=
  match parameters with
  | [] => (true, pm)
  | param :: rest =>
      match params_ pm !! get_name param with
      | None =>
          (false,
           RCLCPP_ERROR_STREAM
             ("One of the parameters given does not is not a parameter of the controller node. Parameter: "
              +:+ get_name param) pm)
      | Some _ => set_parameters_callback rest (store_parameter param pm)
      end
  end.

(** The value that [params_] can hold for a parameter, when its type is one
    of the four stored types. *)
Definition stored_value (param : rclcpp_Parameter) : option param_variant :=
  match get_parameter_value param with
  | double_value d => Some (v_double d)
  | bool_value b => Some (v_bool b)
  | integer_value z => Some (v_int64 z)
  | string_value str => Some (v_string str)
  | _ => None
  end.

(** The assignments of a vector applied in order to the map. *)
Definition apply_parameters (parameters : list rclcpp_Parameter)
    (m : gmap string param_variant) : gmap string param_variant :=
  foldl (fun m param =>
           match stored_value param with
           | Some v => <[get_name param := v]> m
           | None => m
           end) m parameters.

(** Sample values for the examples: a manager with two declared
    parameters, and parameters to set. *)
Definition sample_manager : param_manager :=
  declare_param "max_t" (v_double 1)
    (declare_param "alt_hz" (v_double 10)
       {| params_ := ∅; error_stream := [] |}).

Definition set_alt_hz : rclcpp_Parameter :=
  {| get_name := "alt_hz"; get_parameter_value := double_value 20 |}.

Definition set_max_t : rclcpp_Parameter :=
  {| get_name := "max_t"; get_parameter_value := double_value 0.5 |}.

Definition set_unknown : rclcpp_Parameter :=
  {| get_name := "unknown"; get_parameter_value := double_value 1 |}.


(** ** Quantities named by the properties of the handlers *)

(** The members of each loop, as a group. *)
Definition course_members (s : state) : Q * Q := (c_error_ s, c_integrator_ s).
Definition roll_members (s : state) : Q * Q := (r_error_ s, r_integrator s).
Definition pitch_members (s : state) : Q * Q := (p_error_ s, p_integrator_ s).
Definition airspeed_members (s : state) : Q * Q * Q :=
  (at_error_ s, at_integrator_ s, at_differentiator_ s).
Definition altitude_members (s : state) : Q * Q * Q :=
  (a_error_ s, a_integrator_ s, a_differentiator_ s).

(** A call of one of the six phase functions of the controller. *)
Inductive member_call :=
  | call_take_off (input : input_s)
  | call_take_off_exit
  | call_climb (input : input_s)
  | call_climb_exit
  | call_altitude_hold (input : input_s)
  | call_altitude_hold_exit.

(** The state after one call, and after a sequence of calls in order. *)
Definition perform (params : params_s) (c : member_call) (s : state) : state :=
  match c with
  | call_take_off input => snd (take_off params input s)
  | call_take_off_exit => take_off_exit s
  | call_climb input => snd (climb params input s)
  | call_climb_exit => climb_exit s
  | call_altitude_hold input => snd (altitude_hold params input s)
  | call_altitude_hold_exit => altitude_hold_exit s
  end.

Definition perform_all (params : params_s) (calls : list member_call)
    (s : state) : state :=
  foldl (fun s c => perform params c s) s calls.

(** An input that differs from [sample_input] in the altitudes, the
    courses, the feed-forward roll and the yaw rate. *)
Definition sample_input_level : input_s :=
  {| Ts := 0.01; h := 100; va := 0; phi := 0; theta := 0; chi := 0.3;
     p := 0; q := 0; r := 0.2; Va_c := 1; h_c := 100; chi_c := 0; phi_ff := 0.1 |}.


(** ** The getters and [set_parameters] of [param_manager.cpp] *)

(** The exceptions that leave the member functions, and the outcome of a
    call that may throw. *)
Inductive exception :=
  | runtime_error (what : string)
  | ParameterNotDeclaredException (name : string).

Inductive outcome (A : Type) :=
  | returns (a : A)
  | throws (e : exception).

Arguments returns {A} a.
Arguments throws {A} e.

(** [params_[param_name]]: the entry of the name, which [std::map] first
    creates with a value-initialised variant when the name is not a key.
    The variant type is declared in the class header, which the translation
    unit only includes, so its value-initialised value is the argument
    [value_initialized]. *)
Definition subscript (value_initialized : param_variant) (param_name : string)
    (pm : param_manager) : param_variant * param_manager :=
  match params_ pm !! param_name with
  | Some v => (v, pm)
  | None =>
      (value_initialized,
       set_params_ (<[param_name := value_initialized]> (params_ pm)) pm)
  end.

(** What every getter does when [std::get] throws [bad_variant_access]. *)
Definition getter_failure {A : Type} (param_name : string) (pm : param_manager)
    : outcome A * param_manager :=
  (throws (runtime_error "error"),
   RCLCPP_ERROR_STREAM ("ERROR GETTING PARAMETER: " +:+ param_name) pm).

Definition get_double (value_initialized : param_variant) (param_name : string)
    (pm : param_manager) : outcome Q * param_manager :=
  let '(v, pm) := subscript value_initialized param_name pm in
  match v with
  | v_double d => (returns d, pm)
  | _ => getter_failure param_name pm
  end.

Definition get_bool (value_initialized : param_variant) (param_name : string)
    (pm : param_manager) : outcome bool * param_manager :=
  let '(v, pm) := subscript value_initialized param_name pm in
  match v with
  | v_bool b => (returns b, pm)
  | _ => getter_failure param_name pm
  end.

Definition get_int (value_initialized : param_variant) (param_name : string)
    (pm : param_manager) : outcome Z * param_manager :=
  let '(v, pm) := subscript value_initialized param_name pm in
  match v with
  | v_int64 z => (returns z, pm)
  | _ => getter_failure param_name pm
  end.

Definition get_string (value_initialized : param_variant) (param_name : string)
    (pm : param_manager) : outcome string * param_manager :=
  let '(v, pm) := subscript value_initialized param_name pm in
  match v with
  | v_string str => (returns str, pm)
  | _ => getter_failure param_name pm
  end.

(** [container_node_->get_parameter(key)]: the node either returns the
    parameter of the name or throws [ParameterNotDeclaredException]; the
    node is the function [node], with [None] where it throws. *)
Definition get_parameter (node : string -> option ParameterValue) (key : string)
    : outcome rclcpp_Parameter :=
  match node key with
  | Some value => returns {| get_name := key; get_parameter_value := value |}
  | None => throws (ParameterNotDeclaredException key)
  end.

(** The body of the loop of [set_parameters] for one key. *)
Definition refresh_parameter (node : string -> option ParameterValue)
    (key : string) (pm : param_manager) : outcome unit * param_manager :=
  match get_parameter node key with
  | throws e => (throws e, pm)
  | returns param =>
      match get_parameter_value param with
      | double_value d =>
          (returns tt, set_params_ (<[key := v_double d]> (params_ pm)) pm)
      | bool_value b =>
          (returns tt, set_params_ (<[key := v_bool b]> (params_ pm)) pm)
      | integer_value z =>
          (returns tt, set_params_ (<[key := v_int64 z]> (params_ pm)) pm)
      | string_value str =>
          (returns tt, set_params_ (<[key := v_string str]> (params_ pm)) pm)
      | _ =>
          (returns tt,
           RCLCPP_ERROR_STREAM
             ("Unable to set parameter: " +:+ key
              +:+ ". Error casting parameter as double, int, string, or bool!") pm)
      end
  end.

(** The loop over the keys, left at the first exception. *)
Fixpoint refresh_parameters (node : string -> option ParameterValue)
    (keys : list string) (pm : param_manager) : outcome unit * param_manager :=
  match keys with
  | [] => (returns tt, pm)
  | key :: rest =>
      match refresh_parameter node key pm with
      | (returns _, pm) => refresh_parameters node rest pm
      | (throws e, pm) => (throws e, pm)
      end
  end.

(** The keys of [params_] in the order in which [std::map] iterates:
    ascending in the order of [std::string]. *)
Definition string_le (s1 s2 : string) : Prop := String.leb s1 s2 = true.

#[local] Instance string_le_dec : RelDecision string_le :=
  fun s1 s2 => decide (String.leb s1 s2 = true).

Definition keys_in_order (m : gmap string param_variant) : list string :=
  merge_sort string_le (map_to_list m).*1.

Definition set_parameters (node : string -> option ParameterValue)
    (pm : param_manager) : outcome unit * param_manager :=
  refresh_parameters node (keys_in_order (params_ pm)) pm.

(** The entry of a key after a refresh from a parameter value of the node:
    the value when it has one of the four stored types, the entry as it was
    otherwise. *)
Definition refreshed (value : ParameterValue) (old : param_variant)
    : param_variant :=
  match value with
  | double_value d => v_double d
  | bool_value b => v_bool b
  | integer_value z => v_int64 z
  | string_value str => v_string str
  | _ => old
  end.

(** The entry of a key after the loop body of [set_parameters] has run for
    it, from the value the node holds and the entry before. *)
Definition refreshed_entry (value : ParameterValue) (o : option param_variant)
    : option param_variant :=
  match value with
  | double_value d => Some (v_double d)
  | bool_value b => Some (v_bool b)
  | integer_value z => Some (v_int64 z)
  | string_value str => Some (v_string str)
  | _ => o
  end.

(** The line that [set_parameters_callback] sends to the error stream for
    a name that is not declared. *)
Definition not_a_parameter (name : string) : string :=
  "One of the parameters given does not is not a parameter of the controller node. Parameter: "
  +:+ name.

(** A sample node: it holds overrides for both parameters of
    [sample_manager], an array for [max_t]. *)
Definition sample_node (key : string) : option ParameterValue :=
  if String.eqb key "alt_hz" then Some (double_value 25)
  else if String.eqb key "max_t" then Some (double_array_value [1])
  else None.

(** ** The loops of [controller_example.cpp] in IEEE 754 arithmetic

    The bounds of the loop outputs depend on what exact arithmetic leaves
    out: an overflow gives an infinity, [inf - inf] and [0 / 0] give NaN,
    NaN fails every comparison of [sat], and the limits of [params_s] are
    rounded to [float] when [sat] receives them.  The module [Ieee] embeds
    [sat] and the five loops once more, over the binary formats of the
    source: [float] is binary32, [double] is binary64, every operation
    rounds to nearest even as specified by [SpecFloat], and the conversions
    of the C++ expressions are written out ([widen] where an operand is
    promoted to [double], [narrow] where a [double] is assigned or passed
    to a [float]).  The data members, the arguments and the locals of the
    loops are [float] as the source declares them; the members of
    [params_s], declared in a header that the translation unit only
    includes, are [double]. *)
Module Ieee.

Definition float : Type := spec_float.
Definition double : Type := spec_float.

(** [float] to [double], exact; [double] to [float], rounded. *)
Definition widen (x : float) : double :=
  match x with
  | S754_finite s m e => binary_normalize 53 1024 (cond_Zopp s (Zpos m)) e s
  | _ => x
  end.

Definition narrow (x : double) : float :=
  match x with
  | S754_finite s m e => binary_normalize 24 128 (cond_Zopp s (Zpos m)) e s
  | _ => x
  end.

(** Integer and decimal literals of type [double]: [decimal n d] is the
    [double] nearest to [n / d]. *)
Definition integer (z : Z) : double := binary_normalize 53 1024 z 0 false.

Definition decimal (n d : Z) : double := SFdiv 53 1024 (integer n) (integer d).

Declare Scope float_scope.
Delimit Scope float_scope with f32.
Declare Scope double_scope.
Delimit Scope double_scope with f64.

Notation "x + y" := (SFadd 24 128 x y) : float_scope.
Notation "x - y" := (SFsub 24 128 x y) : float_scope.
Notation "- x" := (SFopp x) : float_scope.
Notation "x <? y" := (SFltb x y) : float_scope.
Notation "x <=? y" := (SFleb x y) : float_scope.

Notation "x + y" := (SFadd 53 1024 x y) : double_scope.
Notation "x - y" := (SFsub 53 1024 x y) : double_scope.
Notation "x * y" := (SFmul 53 1024 x y) : double_scope.
Notation "x / y" := (SFdiv 53 1024 x y) : double_scope.
Notation "- x" := (SFopp x) : double_scope.
Notation "x <? y" := (SFltb x y) : double_scope.
Notation "x <=? y" := (SFleb x y) : double_scope.

(** The literal [0] where a [float] is expected. *)
Definition zero : float := S754_zero false.

(** [fabs(x) >= 0.00001] on [double]. *)
Definition fabs_ge (x : double) : bool :=
  (decimal 1 100000 <=? SFabs x)%f64.

Record params_s := {
  alt_hz : double;
  tau : double;
  c_kp : double; c_ki : double; c_kd : double;
  r_kp : double; r_ki : double; r_kd : double;
  p_kp : double; p_ki : double; p_kd : double;
  a_t_kp : double; a_t_ki : double; a_t_kd : double;
  a_kp : double; a_ki : double; a_kd : double;
  trim_e : double; trim_t : double; pwm_rad_e : double;
  max_a : double; max_e : double; max_t : double;
  max_takeoff_throttle : double
}.

Record state := {
  c_error_ : float; c_integrator_ : float;
  r_error_ : float; r_integrator : float;
  p_error_ : float; p_integrator_ : float;
  at_error_ : float; at_integrator_ : float; at_differentiator_ : float;
  a_error_ : float; a_integrator_ : float; a_differentiator_ : float
}.

Definition set_c_error_ (v : float) (s : state) : state :=
  {| c_error_ := v; c_integrator_ := c_integrator_ s; r_error_ := r_error_ s;
     r_integrator := r_integrator s; p_error_ := p_error_ s;
     p_integrator_ := p_integrator_ s; at_error_ := at_error_ s;
     at_integrator_ := at_integrator_ s;
     at_differentiator_ := at_differentiator_ s; a_error_ := a_error_ s;
     a_integrator_ := a_integrator_ s;
     a_differentiator_ := a_differentiator_ s |}.

Definition set_c_integrator_ (v : float) (s : state) : state :=
  {| c_error_ := c_error_ s; c_integrator_ := v; r_error_ := r_error_ s;
     r_integrator := r_integrator s; p_error_ := p_error_ s;
     p_integrator_ := p_integrator_ s; at_error_ := at_error_ s;
     at_integrator_ := at_integrator_ s;
     at_differentiator_ := at_differentiator_ s; a_error_ := a_error_ s;
     a_integrator_ := a_integrator_ s;
     a_differentiator_ := a_differentiator_ s |}.

Definition set_r_error_ (v : float) (s : state) : state :=
  {| c_error_ := c_error_ s; c_integrator_ := c_integrator_ s; r_error_ := v;
     r_integrator := r_integrator s; p_error_ := p_error_ s;
     p_integrator_ := p_integrator_ s; at_error_ := at_error_ s;
     at_integrator_ := at_integrator_ s;
     at_differentiator_ := at_differentiator_ s; a_error_ := a_error_ s;
     a_integrator_ := a_integrator_ s;
     a_differentiator_ := a_differentiator_ s |}.

Definition set_r_integrator (v : float) (s : state) : state :=
  {| c_error_ := c_error_ s; c_integrator_ := c_integrator_ s;
     r_error_ := r_error_ s; r_integrator := v; p_error_ := p_error_ s;
     p_integrator_ := p_integrator_ s; at_error_ := at_error_ s;
     at_integrator_ := at_integrator_ s;
     at_differentiator_ := at_differentiator_ s; a_error_ := a_error_ s;
     a_integrator_ := a_integrator_ s;
     a_differentiator_ := a_differentiator_ s |}.

Definition set_p_error_ (v : float) (s : state) : state :=
  {| c_error_ := c_error_ s; c_integrator_ := c_integrator_ s;
     r_error_ := r_error_ s; r_integrator := r_integrator s; p_error_ := v;
     p_integrator_ := p_integrator_ s; at_error_ := at_error_ s;
     at_integrator_ := at_integrator_ s;
     at_differentiator_ := at_differentiator_ s; a_error_ := a_error_ s;
     a_integrator_ := a_integrator_ s;
     a_differentiator_ := a_differentiator_ s |}.

Definition set_p_integrator_ (v : float) (s : state) : state :=
  {| c_error_ := c_error_ s; c_integrator_ := c_integrator_ s;
     r_error_ := r_error_ s; r_integrator := r_integrator s;
     p_error_ := p_error_ s; p_integrator_ := v; at_error_ := at_error_ s;
     at_integrator_ := at_integrator_ s;
     at_differentiator_ := at_differentiator_ s; a_error_ := a_error_ s;
     a_integrator_ := a_integrator_ s;
     a_differentiator_ := a_differentiator_ s |}.

Definition set_at_error_ (v : float) (s : state) : state :=
  {| c_error_ := c_error_ s; c_integrator_ := c_integrator_ s;
     r_error_ := r_error_ s; r_integrator := r_integrator s;
     p_error_ := p_error_ s; p_integrator_ := p_integrator_ s;
     at_error_ := v; at_integrator_ := at_integrator_ s;
     at_differentiator_ := at_differentiator_ s; a_error_ := a_error_ s;
     a_integrator_ := a_integrator_ s;
     a_differentiator_ := a_differentiator_ s |}.

Definition set_at_integrator_ (v : float) (s : state) : state :=
  {| c_error_ := c_error_ s; c_integrator_ := c_integrator_ s;
     r_error_ := r_error_ s; r_integrator := r_integrator s;
     p_error_ := p_error_ s; p_integrator_ := p_integrator_ s;
     at_error_ := at_error_ s; at_integrator_ := v;
     at_differentiator_ := at_differentiator_ s; a_error_ := a_error_ s;
     a_integrator_ := a_integrator_ s;
     a_differentiator_ := a_differentiator_ s |}.

Definition set_at_differentiator_ (v : float) (s : state) : state :=
  {| c_error_ := c_error_ s; c_integrator_ := c_integrator_ s;
     r_error_ := r_error_ s; r_integrator := r_integrator s;
     p_error_ := p_error_ s; p_integrator_ := p_integrator_ s;
     at_error_ := at_error_ s; at_integrator_ := at_integrator_ s;
     at_differentiator_ := v; a_error_ := a_error_ s;
     a_integrator_ := a_integrator_ s;
     a_differentiator_ := a_differentiator_ s |}.

Definition set_a_error_ (v : float) (s : state) : state :=
  {| c_error_ := c_error_ s; c_integrator_ := c_integrator_ s;
     r_error_ := r_error_ s; r_integrator := r_integrator s;
     p_error_ := p_error_ s; p_integrator_ := p_integrator_ s;
     at_error_ := at_error_ s; at_integrator_ := at_integrator_ s;
     at_differentiator_ := at_differentiator_ s; a_error_ := v;
     a_integrator_ := a_integrator_ s;
     a_differentiator_ := a_differentiator_ s |}.

Definition set_a_integrator_ (v : float) (s : state) : state :=
  {| c_error_ := c_error_ s; c_integrator_ := c_integrator_ s;
     r_error_ := r_error_ s; r_integrator := r_integrator s;
     p_error_ := p_error_ s; p_integrator_ := p_integrator_ s;
     at_error_ := at_error_ s; at_integrator_ := at_integrator_ s;
     at_differentiator_ := at_differentiator_ s; a_error_ := a_error_ s;
     a_integrator_ := v; a_differentiator_ := a_differentiator_ s |}.

Definition set_a_differentiator_ (v : float) (s : state) : state :=
  {| c_error_ := c_error_ s; c_integrator_ := c_integrator_ s;
     r_error_ := r_error_ s; r_integrator := r_integrator s;
     p_error_ := p_error_ s; p_integrator_ := p_integrator_ s;
     at_error_ := at_error_ s; at_integrator_ := at_integrator_ s;
     at_differentiator_ := at_differentiator_ s; a_error_ := a_error_ s;
     a_integrator_ := a_integrator_ s; a_differentiator_ := v |}.

(** [sat(value, up_limit, low_limit)]: both tests fail on NaN. *)
Definition sat (value up_limit low_limit : float) : float :=
  if (up_limit <? value)%f32 then up_limit
  else if (value <? low_limit)%f32 then low_limit
  else value.

Definition course_hold (chi_c chi phi_ff r : float) (params : params_s)
    (Ts : float) (s : state) : float * state :=
  let error := (chi_c - chi)%f32 in
  let s :=
    set_c_integrator_
      (narrow (widen (c_integrator_ s)
               + (widen Ts / integer 2) * widen (error + c_error_ s)%f32)%f64) s in
  let up := narrow (c_kp params * widen error)%f64 in
  let ui := narrow (c_ki params * widen (c_integrator_ s))%f64 in
  let ud := narrow (c_kd params * widen r)%f64 in
  let phi_c :=
    sat (up + ui + ud + phi_ff)%f32
      (narrow (integer 15 * decimal 314 100 / integer 180)%f64)
      (narrow (integer (-15) * decimal 314 100 / integer 180)%f64) in
  let s :=
    if fabs_ge (c_ki params) then
      let phi_c_unsat := (up + ui + ud + phi_ff)%f32 in
      set_c_integrator_
        (narrow (widen (c_integrator_ s)
                 + (widen Ts / c_ki params) * widen (phi_c - phi_c_unsat)%f32)%f64) s
    else s in
  let s := set_c_error_ error s in
  (phi_c, s).

Definition roll_hold (phi_c phi p : float) (params : params_s) (Ts : float)
    (s : state) : float * state :=
  let error := (phi_c - phi)%f32 in
  let s :=
    set_r_integrator
      (narrow (widen (r_integrator s)
               + (widen Ts / integer 2) * widen (error + r_error_ s)%f32)%f64) s in
  let up := narrow (r_kp params * widen error)%f64 in
  let ui := narrow (r_ki params * widen (r_integrator s))%f64 in
  let ud := narrow (r_kd params * widen p)%f64 in
  let delta_a :=
    sat (up + ui - ud)%f32 (narrow (max_a params)) (narrow (- max_a params)%f64) in
  let s :=
    if fabs_ge (r_ki params) then
      let delta_a_unsat := (up + ui - ud)%f32 in
      set_r_integrator
        (narrow (widen (r_integrator s)
                 + (widen Ts / r_ki params) * widen (delta_a - delta_a_unsat)%f32)%f64)
        s
    else s in
  let s := set_r_error_ error s in
  (delta_a, s).

Definition pitch_hold (theta_c theta q : float) (params : params_s) (Ts : float)
    (s : state) : float * state :=
  let error := (theta_c - theta)%f32 in
  let s :=
    set_p_integrator_
      (narrow (widen (p_integrator_ s)
               + (widen Ts / integer 2) * widen (error + p_error_ s)%f32)%f64) s in
  let up := narrow (p_kp params * widen error)%f64 in
  let ui := narrow (p_ki params * widen (p_integrator_ s))%f64 in
  let ud := narrow (p_kd params * widen q)%f64 in
  let delta_e :=
    sat (narrow (trim_e params / pwm_rad_e params + widen up + widen ui
                 - widen ud)%f64)
      (narrow (max_e params)) (narrow (- max_e params)%f64) in
  let s :=
    if fabs_ge (p_ki params) then
      let delta_e_unsat :=
        narrow (trim_e params / pwm_rad_e params + widen up + widen ui
                - widen ud)%f64 in
      set_p_integrator_
        (narrow (widen (p_integrator_ s)
                 + (widen Ts / p_ki params) * widen (delta_e - delta_e_unsat)%f32)%f64)
        s
    else s in
  let s := set_p_error_ error s in
  ((- delta_e)%f32, s).

Definition airspeed_with_throttle_hold (Va_c Va : float) (params : params_s)
    (Ts : float) (s : state) : float * state :=
  let error := (Va_c - Va)%f32 in
  let s :=
    set_at_integrator_
      (narrow (widen (at_integrator_ s)
               + (widen Ts / integer 2) * widen (error + at_error_ s)%f32)%f64) s in
  let s :=
    set_at_differentiator_
      (narrow ((integer 2 * tau params - widen Ts)
               / (integer 2 * tau params + widen Ts) * widen (at_differentiator_ s)
               + (integer 2 / (integer 2 * tau params + widen Ts))
                 * widen (error - at_error_ s)%f32)%f64) s in
  let up := narrow (a_t_kp params * widen error)%f64 in
  let ui := narrow (a_t_ki params * widen (at_integrator_ s))%f64 in
  let ud := narrow (a_t_kd params * widen (at_differentiator_ s))%f64 in
  let delta_t :=
    sat (narrow (trim_t params + widen up + widen ui + widen ud)%f64)
      (narrow (max_t params)) zero in
  let s :=
    if fabs_ge (a_t_ki params) then
      let delta_t_unsat :=
        narrow (trim_t params + widen up + widen ui + widen ud)%f64 in
      set_at_integrator_
        (narrow (widen (at_integrator_ s)
                 + (widen Ts / a_t_ki params)
                   * widen (delta_t - delta_t_unsat)%f32)%f64) s
    else s in
  let s := set_at_error_ error s in
  (delta_t, s).

Definition altitude_hold_control (h_c h : float) (params : params_s) (Ts : float)
    (s : state) : float * state :=
  let error := (h_c - h)%f32 in
  let s :=
    if ((- alt_hz params + decimal 1 100 <? widen error)%f64
        && (widen error <? alt_hz params - decimal 1 100)%f64)%bool then
      set_a_integrator_
        (narrow (widen (a_integrator_ s)
                 + (widen Ts / integer 2) * widen (error + a_error_ s)%f32)%f64) s
    else
      set_a_integrator_ (narrow (integer 0)) s in
  let s :=
    set_a_differentiator_
      (narrow ((integer 2 * tau params - widen Ts)
               / (integer 2 * tau params + widen Ts) * widen (a_differentiator_ s)
               + (integer 2 / (integer 2 * tau params + widen Ts))
                 * widen (error - a_error_ s)%f32)%f64) s in
  let up := narrow (a_kp params * widen error)%f64 in
  let ui := narrow (a_ki params * widen (a_integrator_ s))%f64 in
  let ud := narrow (a_kd params * widen (a_differentiator_ s))%f64 in
  let theta_c :=
    sat (up + ui + ud)%f32
      (narrow (integer 10 * decimal 314 100 / integer 180)%f64)
      (narrow (integer (-10) * decimal 314 100 / integer 180)%f64) in
  let s :=
    if fabs_ge (a_ki params) then
      let theta_c_unsat := (up + ui + ud)%f32 in
      set_a_integrator_
        (narrow (widen (a_integrator_ s)
                 + (widen Ts / a_ki params)
                   * widen (theta_c - theta_c_unsat)%f32)%f64) s
    else s in
  let s := set_at_error_ error s in
  (theta_c, s).

(** *** Quantities named by the properties *)

Definition is_nan (x : spec_float) : bool :=
  match x with S754_nan => true | _ => false end.

Definition is_finite (x : spec_float) : bool :=
  match x with S754_zero _ | S754_finite _ _ _ => true | _ => false end.

(** Zero of either sign, a positive finite value or the positive
    infinity. *)
Definition nonnegative (x : spec_float) : bool :=
  match x with
  | S754_zero _ | S754_finite false _ _ | S754_infinity false => true
  | _ => false
  end.

(** [lo <= x <= hi] by the comparisons of the format; false when one of
    the three is NaN. *)
Definition within (lo hi x : spec_float) : bool :=
  SFleb lo x && SFleb x hi.

(** An output is NaN or within the bounds. *)
Definition nan_or_within (lo hi x : float) : Prop :=
  is_nan x = true \/ within lo hi x = true.

(** The bounds of the course and altitude loops as [sat] receives them. *)
Definition course_limit : float :=
  narrow (integer 15 * decimal 314 100 / integer 180)%f64.

Definition altitude_limit : float :=
  narrow (integer 10 * decimal 314 100 / integer 180)%f64.

(** A loop run over a finite sequence of per-tick inputs. *)
Fixpoint run {I : Type} (tick : I -> state -> float * state) (inputs : list I)
    (s : state) : list float * state :=
  match inputs with
  | [] => ([], s)
  | i :: rest =>
      let '(out, s) := tick i s in
      let '(outs, s) := run tick rest s in
      (out :: outs, s)
  end.

(** Sample values: the zero state, parameters with unit proportional and
    integral gains and an aileron limit of 0.1, and the same parameters
    with the elevator trim scale [pwm_rad_e] at zero. *)
Definition zero_state : state :=
  {| c_error_ := zero; c_integrator_ := zero; r_error_ := zero;
     r_integrator := zero; p_error_ := zero; p_integrator_ := zero;
     at_error_ := zero; at_integrator_ := zero; at_differentiator_ := zero;
     a_error_ := zero; a_integrator_ := zero; a_differentiator_ := zero |}.

Definition sample_params : params_s :=
  {| alt_hz := integer 10; tau := integer 5;
     c_kp := integer 1; c_ki := integer 1; c_kd := integer 0;
     r_kp := integer 1; r_ki := integer 1; r_kd := integer 0;
     p_kp := integer 1; p_ki := integer 1; p_kd := integer 0;
     a_t_kp := integer 1; a_t_ki := integer 1; a_t_kd := integer 0;
     a_kp := integer 1; a_ki := integer 0; a_kd := integer 0;
     trim_e := integer 0; trim_t := decimal 1 2; pwm_rad_e := integer 1;
     max_a := decimal 1 10; max_e := decimal 1 2; max_t := integer 1;
     max_takeoff_throttle := decimal 8 10 |}.

Definition zero_pwm_params : params_s :=
  {| alt_hz := integer 10; tau := integer 5;
     c_kp := integer 1; c_ki := integer 1; c_kd := integer 0;
     r_kp := integer 1; r_ki := integer 1; r_kd := integer 0;
     p_kp := integer 1; p_ki := integer 1; p_kd := integer 0;
     a_t_kp := integer 1; a_t_ki := integer 1; a_t_kd := integer 0;
     a_kp := integer 1; a_ki := integer 0; a_kd := integer 0;
     trim_e := integer 0; trim_t := decimal 1 2; pwm_rad_e := integer 0;
     max_a := decimal 1 10; max_e := decimal 1 2; max_t := integer 1;
     max_takeoff_throttle := decimal 8 10 |}.

(** [float] values of the examples: [3e38], [0.01], [1], [0.1]. *)
Definition f_3e38 : float := narrow (integer (3 * 10 ^ 38)).
Definition f_0_01 : float := narrow (decimal 1 100).
Definition f_1 : float := narrow (integer 1).
Definition f_0_1 : float := narrow (decimal 1 10).

End Ieee.

(** * Properties *)

(** ** Comparisons *)

Lemma Qltb_lt (x y : Q) : Qltb x y = true <-> x < y.
Proof. unfold Qltb, Qlt. apply Z.ltb_lt. Qed.

Lemma Qltb_ge (x y : Q) : Qltb x y = false <-> y <= x.
Proof. unfold Qltb, Qle. apply Z.ltb_ge. Qed.

Lemma fabs_ge_true (x eps : Q) : fabs_ge x eps = true <-> eps <= Qabs x.
Proof. unfold fabs_ge. apply Qle_bool_iff. Qed.

Lemma fabs_ge_false (x eps : Q) : fabs_ge x eps = false <-> Qabs x < eps.
Proof.
  unfold fabs_ge. split; intros H.
  - apply Qnot_le_lt. intros Hle. apply Qle_bool_iff in Hle. congruence.
  - destruct (Qle_bool eps (Qabs x)) eqn:E; [|reflexivity].
    apply Qle_bool_iff in E. lra.
Qed.

(** The gate of the anti-windup step excludes a zero integral gain. *)
Lemma fabs_ge_nonzero (x : Q) : fabs_ge x 0.00001 = true -> ~ x == 0.
Proof.
  intros H Hx. apply fabs_ge_true in H.
  rewrite Hx in H. vm_compute in H. apply H. reflexivity.
Qed.

(** Case analysis on a strict comparison of the source. *)
Ltac case_Qltb x y :=
  let E := fresh "E" in
  destruct (Qltb x y) eqn:E;
  [apply Qltb_lt in E | apply Qltb_ge in E].

(** ** The saturation primitive *)

Lemma sat_in_range (value upper lower : Q) :
  lower <= upper -> in_range lower upper (sat value upper lower).
Proof.
  intros Hb. unfold sat, in_range.
  case_Qltb upper value; [lra|].
  case_Qltb value lower; lra.
Qed.

Lemma sat_in_range_eq (value upper lower upper' lower' : Q) :
  lower' == lower -> upper' == upper -> lower <= upper ->
  in_range lower' upper' (sat value upper lower).
Proof.
  intros Hl Hu Hb. destruct (sat_in_range value upper lower Hb) as [H1 H2].
  split; [rewrite Hl | rewrite Hu]; assumption.
Qed.

Lemma sat_inside (value upper lower : Q) :
  in_range lower upper value -> sat value upper lower = value.
Proof.
  intros [Hl Hu]. unfold sat.
  case_Qltb upper value; [lra|].
  case_Qltb value lower; [lra|reflexivity].
Qed.



Example sat_20 : sat 20 15 (-15) = 15.
Proof. reflexivity. Qed.

Example sat_minus_20 : sat (-20) 15 (-15) = -15.
Proof. reflexivity. Qed.

Example sat_5 : sat 5 15 (-15) = 5.
Proof. reflexivity. Qed.



(** ** Reading a member after assignments *)

(** Reduction of member reads over member assignments, leaving the
    arithmetic untouched. *)
Ltac state_simpl :=
  cbn [fst snd
       c_error_ c_integrator_ r_error_ r_integrator p_error_ p_integrator_
       at_error_ at_integrator_ at_differentiator_
       a_error_ a_integrator_ a_differentiator_
       set_c_error_ set_c_integrator_ set_r_error_ set_r_integrator
       set_p_error_ set_p_integrator_
       set_at_error_ set_at_integrator_ set_at_differentiator_
       set_a_error_ set_a_integrator_ set_a_differentiator_] in *.

(** ** The loops: output and stored integrator *)

(** Each loop returns its unsaturated effort clamped to its bounds. *)
Lemma course_hold_output chi_c chi phi_ff r params Ts s :
  fst (course_hold chi_c chi phi_ff r params Ts s)
  = sat (course_effort chi_c chi phi_ff r params (course_integrated chi_c chi Ts s))
        (15 * 3.14 / 180) (-15 * 3.14 / 180).
Proof. reflexivity. Qed.

Lemma roll_hold_output phi_c phi p params Ts s :
  fst (roll_hold phi_c phi p params Ts s)
  = sat (roll_effort phi_c phi p params (roll_integrated phi_c phi Ts s))
        (max_a params) (- max_a params).
Proof. reflexivity. Qed.

Lemma pitch_hold_output theta_c theta q params Ts s :
  fst (pitch_hold theta_c theta q params Ts s)
  = - sat (pitch_effort theta_c theta q params (pitch_integrated theta_c theta Ts s))
          (max_e params) (- max_e params).
Proof. reflexivity. Qed.

Lemma airspeed_with_throttle_hold_output Va_c Va params Ts s :
  fst (airspeed_with_throttle_hold Va_c Va params Ts s)
  = sat (airspeed_effort Va_c Va params (airspeed_integrated Va_c Va params Ts s))
        (max_t params) 0.
Proof. reflexivity. Qed.

(** The two-sided test of the altitude loop is the test of the magnitude
    of the error against [alt_hz - 0.01]. *)
Lemma deadband_test params error :
  Qltb (- alt_hz params + 0.01) error && Qltb error (alt_hz params - 0.01)
  = in_deadband params error.
Proof.
  unfold in_deadband.
  case_Qltb (Qabs error) (alt_hz params - 0.01).
  - apply Qabs_Qlt_condition in E. destruct E as [E1 E2].
    apply andb_true_intro. split; apply Qltb_lt; lra.
  - apply andb_false_iff.
    destruct (Qlt_le_dec error 0) as [Hneg|Hpos].
    + left. apply Qltb_ge. rewrite Qabs_neg in E by lra. lra.
    + right. apply Qltb_ge. rewrite Qabs_pos in E by lra. lra.
Qed.

Lemma altitude_hold_control_output h_c h params Ts s :
  fst (altitude_hold_control h_c h params Ts s)
  = sat (altitude_effort h_c h params (altitude_integrated h_c h params Ts s))
        (10 * 3.14 / 180) (-10 * 3.14 / 180).
Proof.
  unfold altitude_hold_control, altitude_integrated.
  rewrite deadband_test.
  destruct (in_deadband params (h_c - h)); reflexivity.
Qed.

(** One tick of each loop at 100 Hz from the zero state, with the sample
    parameters: the course and airspeed efforts saturate, the roll loop at
    rest stays at zero, and the pitch loop returns the negated effort. *)
Example course_hold_tick :
  fst (course_hold 1 0 0 0 sample_params 0.01 zero_state) = 15 * 3.14 / 180
  /\ c_error_ (snd (course_hold 1 0 0 0 sample_params 0.01 zero_state)) == 1.
Proof. split; vm_compute; reflexivity. Qed.

Example roll_hold_at_rest :
  fst (roll_hold 0 0 0 sample_params 0.01 zero_state) == 0
  /\ r_integrator (snd (roll_hold 0 0 0 sample_params 0.01 zero_state)) == 0.
Proof. split; vm_compute; reflexivity. Qed.

Example pitch_hold_tick :
  fst (pitch_hold 0.1 0 0 sample_params 0.01 zero_state) == - 0.1005.
Proof. vm_compute. reflexivity. Qed.

Example airspeed_with_throttle_hold_tick :
  fst (airspeed_with_throttle_hold 1 0 sample_params 0.01 zero_state) = 1
  /\ at_error_ (snd (airspeed_with_throttle_hold 1 0 sample_params 0.01 zero_state))
     == 1.
Proof. split; vm_compute; reflexivity. Qed.

(** ** Bounds of the loop outputs, in IEEE 754 arithmetic *)

Section ieee.

Import Ieee.

(** *** Comparisons of the format *)

Lemma SFcompare_refl (x : spec_float) :
  is_nan x = false -> SFcompare x x = Some Eq.
Proof.
  destruct x as [s|s| |s m e]; cbn; try discriminate; intros _.
  - reflexivity.
  - now destruct s.
  - rewrite Z.compare_refl, Pos.compare_cont_refl. now destruct s.
Qed.

Lemma compare_cont_swap (p q : positive) :
  Pos.compare_cont Eq p q = CompOpp (Pos.compare_cont Eq q p).
Proof. symmetry. exact (Pos.compare_cont_antisym q p Eq). Qed.

Lemma SFcompare_antisym (x y : spec_float) (c : comparison) :
  SFcompare x y = Some c -> SFcompare y x = Some (CompOpp c).
Proof.
  destruct x as [sx|sx| |sx mx ex], y as [sy|sy| |sy my ey]; cbn;
    try discriminate; intros [= <-];
    try (now destruct sx); try (now destruct sy);
    try (now destruct sx, sy).
  destruct sx, sy; try reflexivity;
    rewrite (Z.compare_antisym ex ey), (compare_cont_swap my mx);
    cbn; destruct (ex ?= ey)%Z; cbn; try reflexivity;
    destruct (Pos.compare_cont Eq mx my); reflexivity.
Qed.

Lemma SFcompare_not_nan (x y : spec_float) :
  is_nan x = false -> is_nan y = false -> exists c, SFcompare x y = Some c.
Proof.
  destruct x, y; cbn; try discriminate; eauto.
Qed.

Lemma SFleb_not_nan (x y : spec_float) :
  SFleb x y = true -> is_nan x = false /\ is_nan y = false.
Proof.
  unfold SFleb. destruct x, y; cbn; try discriminate; auto.
Qed.

Lemma SFleb_refl (x : spec_float) : is_nan x = false -> SFleb x x = true.
Proof. intros H. unfold SFleb. now rewrite SFcompare_refl. Qed.

(** Of two values that are not NaN, when the second is not below the
    first, the first is at most the second. *)
Lemma SFleb_of_not_ltb (x y : spec_float) :
  is_nan x = false -> is_nan y = false -> SFltb y x = false -> SFleb x y = true.
Proof.
  intros Hx Hy. unfold SFltb, SFleb.
  destruct (SFcompare_not_nan y x Hy Hx) as [c Hc].
  rewrite Hc, (SFcompare_antisym y x c Hc). now destruct c.
Qed.

Lemma SFltb_leb (x y : spec_float) : SFltb x y = true -> SFleb x y = true.
Proof. unfold SFltb, SFleb. destruct (SFcompare x y) as [[]|]; auto. Qed.

Lemma SFopp_involutive (x : spec_float) : SFopp (SFopp x) = x.
Proof. destruct x as [s|s| |s m e]; cbn; now rewrite ?negb_involutive. Qed.

Lemma SFcompare_opp (x y : spec_float) :
  SFcompare (SFopp x) (SFopp y) = SFcompare y x.
Proof.
  destruct x as [sx|sx| |sx mx ex], y as [sy|sy| |sy my ey]; cbn;
    try reflexivity; try (now destruct sx); try (now destruct sy);
    try (now destruct sx, sy).
  destruct sx, sy; cbn; try reflexivity;
    rewrite (Z.compare_antisym ex ey), (compare_cont_swap my mx);
    cbn; destruct (ex ?= ey)%Z; cbn; try reflexivity;
    destruct (Pos.compare_cont Eq mx my); reflexivity.
Qed.

Lemma is_nan_opp (x : spec_float) : is_nan (SFopp x) = is_nan x.
Proof. now destruct x. Qed.

(** *** The saturation primitive *)

(** NaN fails both tests and is returned. *)
Lemma sat_nan (value up_limit low_limit : float) :
  is_nan value = true -> sat value up_limit low_limit = value.
Proof. destruct value; try discriminate. intros _. unfold sat. now destruct up_limit. Qed.

(** A value that is not NaN is clamped into ordered limits. *)
Lemma sat_within (value up_limit low_limit : float) :
  SFleb low_limit up_limit = true -> is_nan value = false ->
  within low_limit up_limit (sat value up_limit low_limit) = true.
Proof.
  intros Hb Hv. destruct (SFleb_not_nan _ _ Hb) as [Hlo Hhi].
  unfold sat, within.
  destruct (SFltb up_limit value) eqn:Hup.
  - now rewrite Hb, SFleb_refl.
  - destruct (SFltb value low_limit) eqn:Hlow.
    + now rewrite SFleb_refl, Hb.
    + now rewrite !SFleb_of_not_ltb.
Qed.

Lemma sat_nan_or_within (value up_limit low_limit : float) :
  SFleb low_limit up_limit = true ->
  nan_or_within low_limit up_limit (sat value up_limit low_limit).
Proof.
  intros Hb. destruct (is_nan value) eqn:Hv.
  - left. now rewrite sat_nan.
  - right. now apply sat_within.
Qed.

Lemma nan_or_within_opp (hi x : float) :
  nan_or_within (SFopp hi) hi x -> nan_or_within (SFopp hi) hi (SFopp x).
Proof.
  intros [Hnan|Hin]; [left; now rewrite is_nan_opp|right].
  unfold within, SFleb in *. apply andb_prop in Hin as [Hlo Hhi].
  pose proof (SFcompare_opp x (SFopp hi)) as H.
  rewrite SFopp_involutive in H.
  now rewrite SFcompare_opp, H, Hhi, Hlo.
Qed.

(** *** Narrowing [double] to [float] *)

Lemma iter_pos_invariant {A : Type} (P : A -> Prop) (f : A -> A) :
  (forall x, P x -> P (f x)) -> forall p x, P x -> P (SpecFloat.iter_pos f p x).
Proof.
  intros Hf p. induction p as [p IH|p IH|]; intros x Hx; cbn; auto.
Qed.

Lemma shr_1_nonneg (mrs : shr_record) :
  (0 <= shr_m mrs)%Z -> (0 <= shr_m (shr_1 mrs))%Z.
Proof.
  destruct mrs as [m r s]. cbn.
  destruct m as [|[p|p|]|[p|p|]]; cbn; lia.
Qed.

Lemma shr_fexp_nonneg (prec emax m e : Z) (l : location) :
  (0 <= m)%Z -> (0 <= shr_m (fst (shr_fexp prec emax m e l)))%Z.
Proof.
  intros Hm. unfold shr_fexp, shr.
  assert (H0 : (0 <= shr_m (shr_record_of_loc m l))%Z)
    by (destruct l as [|[]]; exact Hm).
  destruct (fexp prec emax (Zdigits2 m + e) - e)%Z; cbn [fst]; try exact H0.
  now apply (iter_pos_invariant (fun mrs => (0 <= shr_m mrs)%Z) shr_1 shr_1_nonneg).
Qed.

Lemma round_nearest_even_nonneg (mx : Z) (lx : location) :
  (0 <= mx)%Z -> (0 <= round_nearest_even mx lx)%Z.
Proof.
  intros Hm. destruct lx as [|[]]; cbn; try lia.
  destruct (Z.even mx); lia.
Qed.

(** Rounding a non-negative mantissa gives a non-negative value of the
    format, never NaN. *)
Lemma binary_round_aux_nonneg (prec emax mx ex : Z) (lx : location) :
  (0 <= mx)%Z -> nonnegative (binary_round_aux prec emax false mx ex lx) = true.
Proof.
  intros Hm. unfold binary_round_aux.
  pose proof (shr_fexp_nonneg prec emax mx ex lx Hm) as H1.
  destruct (shr_fexp prec emax mx ex lx) as [mrs' e']. cbn [fst] in H1.
  pose proof (shr_fexp_nonneg prec emax _ e' loc_Exact
                (round_nearest_even_nonneg _ (loc_of_shr_record mrs') H1)) as H2.
  destruct (shr_fexp prec emax _ e' loc_Exact) as [mrs'' e'']. cbn [fst] in H2.
  destruct (shr_m mrs'') as [|m|m]; try reflexivity.
  - now destruct (e'' <=? emax - prec)%Z.
  - lia.
Qed.

(** The sign is attached after rounding. *)
Lemma binary_round_aux_opp (prec emax : Z) (sx : bool) (mx ex : Z) (lx : location) :
  binary_round_aux prec emax (negb sx) mx ex lx
  = SFopp (binary_round_aux prec emax sx mx ex lx).
Proof.
  unfold binary_round_aux.
  destruct (shr_fexp prec emax mx ex lx) as [mrs' e'].
  destruct (shr_fexp prec emax _ e' loc_Exact) as [mrs'' e''].
  destruct (shr_m mrs'') as [|m|m]; try reflexivity.
  now destruct (e'' <=? emax - prec)%Z.
Qed.

Lemma narrow_finite (s : bool) (m : positive) (e : Z) :
  narrow (S754_finite s m e) = binary_round 24 128 s m e.
Proof. now destruct s. Qed.

Lemma narrow_opp (x : double) : narrow (SFopp x) = SFopp (narrow x).
Proof.
  destruct x as [s|s| |s m e]; try reflexivity.
  change (SFopp (S754_finite s m e)) with (S754_finite (negb s) m e).
  rewrite (narrow_finite (negb s) m e), (narrow_finite s m e).
  unfold binary_round.
  destruct (shl_align m e _) as [mz ez]. apply binary_round_aux_opp.
Qed.

Lemma narrow_nonnegative (x : double) :
  nonnegative x = true -> nonnegative (narrow x) = true.
Proof.
  destruct x as [s|[]| |[] m e]; try discriminate; try (intros _; reflexivity).
  intros _. rewrite narrow_finite. unfold binary_round.
  destruct (shl_align m e _) as [mz ez]. now apply binary_round_aux_nonneg.
Qed.

Lemma nonnegative_of_leb (x : double) :
  (integer 0 <=? x)%f64 = true -> nonnegative x = true.
Proof. now destruct x as [s|[]| |[] m e]. Qed.

Lemma leb_zero_of_nonnegative (x : float) :
  nonnegative x = true -> (zero <=? x)%f32 = true.
Proof. now destruct x as [s|[]| |[] m e]. Qed.

Lemma leb_opp_of_nonnegative (x : float) :
  nonnegative x = true -> (- x <=? x)%f32 = true.
Proof.
  destruct x as [[]|[]| |[] m e]; try discriminate; reflexivity.
Qed.

(** *** The five loops *)

Lemma sat_nan_or_within_eq (lo hi value up_limit low_limit : float) :
  up_limit = hi -> low_limit = lo -> SFleb lo hi = true ->
  nan_or_within lo hi (sat value up_limit low_limit).
Proof. intros -> ->. apply sat_nan_or_within. Qed.

Lemma course_hold_nan_or_within chi_c chi phi_ff r params Ts s :
  nan_or_within (- course_limit)%f32 course_limit
    (fst (course_hold chi_c chi phi_ff r params Ts s)).
Proof.
  unfold course_hold. cbv zeta. cbn [fst].
  apply sat_nan_or_within_eq; vm_compute; reflexivity.
Qed.

Lemma roll_hold_nan_or_within phi_c phi p params Ts s :
  (integer 0 <=? max_a params)%f64 = true ->
  nan_or_within (- narrow (max_a params))%f32 (narrow (max_a params))
    (fst (roll_hold phi_c phi p params Ts s)).
Proof.
  intros Ha. unfold roll_hold. cbv zeta. cbn [fst].
  apply sat_nan_or_within_eq.
  - reflexivity.
  - apply narrow_opp.
  - now apply leb_opp_of_nonnegative, narrow_nonnegative, nonnegative_of_leb.
Qed.

Lemma pitch_hold_nan_or_within theta_c theta q params Ts s :
  (integer 0 <=? max_e params)%f64 = true ->
  nan_or_within (- narrow (max_e params))%f32 (narrow (max_e params))
    (fst (pitch_hold theta_c theta q params Ts s)).
Proof.
  intros He. unfold pitch_hold. cbv zeta. cbn [fst].
  apply nan_or_within_opp, sat_nan_or_within_eq.
  - reflexivity.
  - apply narrow_opp.
  - now apply leb_opp_of_nonnegative, narrow_nonnegative, nonnegative_of_leb.
Qed.

Lemma airspeed_with_throttle_hold_nan_or_within Va_c Va params Ts s :
  (integer 0 <=? max_t params)%f64 = true ->
  nan_or_within zero (narrow (max_t params))
    (fst (airspeed_with_throttle_hold Va_c Va params Ts s)).
Proof.
  intros Ht. unfold airspeed_with_throttle_hold. cbv zeta. cbn [fst].
  apply sat_nan_or_within_eq; try reflexivity.
  now apply leb_zero_of_nonnegative, narrow_nonnegative, nonnegative_of_leb.
Qed.

Lemma altitude_hold_control_nan_or_within h_c h params Ts s :
  nan_or_within (- altitude_limit)%f32 altitude_limit
    (fst (altitude_hold_control h_c h params Ts s)).
Proof.
  unfold altitude_hold_control. cbv zeta. cbn [fst].
  apply sat_nan_or_within_eq; vm_compute; reflexivity.
Qed.

Lemma run_Forall_fst {I : Type} (P : float -> Prop)
    (tick : I -> state -> float * state) :
  (forall i s, P (fst (tick i s))) ->
  forall inputs s, Forall P (fst (run tick inputs s)).
Proof.
  intros Htick inputs. induction inputs as [|i rest IH]; intros s; cbn.
  - constructor.
  - pose proof (Htick i s) as Hi. destruct (tick i s) as [out s1].
    pose proof (IH s1) as Hrest. destruct (run tick rest s1) as [outs s2].
    cbn in *. now constructor.
Qed.

(** C3.  In the arithmetic the code runs in ([float] locals, [double]
    parameters, limits narrowed to [float] at the call of [sat]) every
    output of the five loops, over any input sequence from any state, is
    NaN or lies within the bounds as [sat] receives them, the limits
    [max_a], [max_e] and [max_t] being non-negative: the course output
    within plus or minus the [float] nearest [15 * 3.14 / 180], the roll
    and pitch outputs within plus or minus [max_a] and [max_e] narrowed
    to [float], the throttle between [0] and [max_t] narrowed to [float],
    the altitude output within plus or minus the [float] nearest
    [10 * 3.14 / 180]. *)
Theorem pid_outputs_nan_or_bounded (params : Ieee.params_s) :
  (integer 0 <=? Ieee.max_a params)%f64 = true ->
  (integer 0 <=? Ieee.max_e params)%f64 = true ->
  (integer 0 <=? Ieee.max_t params)%f64 = true ->
  (forall (inputs : list (float * float * float * float * float)) s,
      Forall (nan_or_within (- Ieee.course_limit)%f32 Ieee.course_limit)
        (fst (Ieee.run (fun '(chi_c, chi, phi_ff, r, Ts) =>
                     Ieee.course_hold chi_c chi phi_ff r params Ts) inputs s)))
  /\ (forall (inputs : list (float * float * float * float)) s,
      Forall (nan_or_within (- narrow (Ieee.max_a params))%f32
                (narrow (Ieee.max_a params)))
        (fst (Ieee.run (fun '(phi_c, phi, p, Ts) =>
                     Ieee.roll_hold phi_c phi p params Ts) inputs s)))
  /\ (forall (inputs : list (float * float * float * float)) s,
      Forall (nan_or_within (- narrow (Ieee.max_e params))%f32
                (narrow (Ieee.max_e params)))
        (fst (Ieee.run (fun '(theta_c, theta, q, Ts) =>
                     Ieee.pitch_hold theta_c theta q params Ts) inputs s)))
  /\ (forall (inputs : list (float * float * float)) s,
      Forall (nan_or_within zero (narrow (Ieee.max_t params)))
        (fst (Ieee.run (fun '(Va_c, Va, Ts) =>
                     Ieee.airspeed_with_throttle_hold Va_c Va params Ts) inputs s)))
  /\ (forall (inputs : list (float * float * float)) s,
      Forall (nan_or_within (- Ieee.altitude_limit)%f32 Ieee.altitude_limit)
        (fst (Ieee.run (fun '(h_c, h, Ts) =>
                     Ieee.altitude_hold_control h_c h params Ts) inputs s))).
Proof.
  intros Ha He Ht. repeat split; intros inputs s; apply run_Forall_fst.
  - intros [[[[chi_c chi] phi_ff] r] Ts] s0. apply course_hold_nan_or_within.
  - intros [[[phi_c phi] p] Ts] s0. now apply roll_hold_nan_or_within.
  - intros [[[theta_c theta] q] Ts] s0. now apply pitch_hold_nan_or_within.
  - intros [[Va_c Va] Ts] s0. now apply airspeed_with_throttle_hold_nan_or_within.
  - intros [[h_c h] Ts] s0. apply altitude_hold_control_nan_or_within.
Qed.

Lemma pid_outputs_nan_or_bounded_witness :
  Forall (nan_or_within (- narrow (Ieee.max_a Ieee.sample_params))%f32
            (narrow (Ieee.max_a Ieee.sample_params)))
    (fst (Ieee.run (fun '(phi_c, phi, p, Ts) =>
                 Ieee.roll_hold phi_c phi p Ieee.sample_params Ts)
              [(f_1, zero, zero, f_0_01); (zero, f_1, f_0_1, f_0_01)]
              Ieee.zero_state))
  /\ Forall (nan_or_within zero (narrow (Ieee.max_t Ieee.sample_params)))
    (fst (Ieee.run (fun '(Va_c, Va, Ts) =>
                 Ieee.airspeed_with_throttle_hold Va_c Va Ieee.sample_params Ts)
              [(f_1, zero, f_0_01); (zero, f_1, f_0_01)] Ieee.zero_state)).
Proof.
  assert (Ha : (integer 0 <=? Ieee.max_a Ieee.sample_params)%f64 = true)
    by (vm_compute; reflexivity).
  assert (He : (integer 0 <=? Ieee.max_e Ieee.sample_params)%f64 = true)
    by (vm_compute; reflexivity).
  assert (Ht : (integer 0 <=? Ieee.max_t Ieee.sample_params)%f64 = true)
    by (vm_compute; reflexivity).
  destruct (pid_outputs_nan_or_bounded Ieee.sample_params Ha He Ht)
    as (_ & Hr & _ & Hat & _).
  split; [apply Hr | apply Hat].
Defined.

(** Three runs with non-negative limits and finite inputs whose output is
    not within the limits of [params_s].  In the course loop the course
    [3e38] commanded at the course [-3e38] makes the error overflow to
    the infinity: the first tick returns the limit and the anti-windup
    stores [inf - inf], which is NaN, in [c_integrator_]; the second tick
    returns NaN, which [sat] passes through as both of its comparisons
    are false.  In the roll loop with [max_a = 0.1] a saturated tick
    returns the [float] nearest [0.1], which is greater than the [double]
    [0.1].  In the pitch loop with [trim_e = 0] and [pwm_rad_e = 0] the
    quotient [0 / 0] is NaN and so is the output. *)
Lemma pid_outputs_leave_bounds :
  ((integer 0 <=? Ieee.max_a Ieee.sample_params)%f64 = true
   /\ (integer 0 <=? Ieee.max_e Ieee.sample_params)%f64 = true
   /\ (integer 0 <=? Ieee.max_t Ieee.sample_params)%f64 = true
   /\ (integer 0 <=? Ieee.max_e Ieee.zero_pwm_params)%f64 = true)
  /\ (is_finite f_3e38 = true
      /\ fst (Ieee.run (fun '(chi_c, chi, phi_ff, r, Ts) =>
                     Ieee.course_hold chi_c chi phi_ff r Ieee.sample_params Ts)
                [(f_3e38, (- f_3e38)%f32, zero, zero, f_0_01);
                 (f_3e38, (- f_3e38)%f32, zero, zero, f_0_01)] Ieee.zero_state)
         = [Ieee.course_limit; S754_nan])
  /\ (fst (Ieee.roll_hold f_1 zero zero Ieee.sample_params f_0_01 Ieee.zero_state)
      = narrow (Ieee.max_a Ieee.sample_params)
      /\ (Ieee.max_a Ieee.sample_params
          <? widen (fst (Ieee.roll_hold f_1 zero zero Ieee.sample_params f_0_01
                           Ieee.zero_state)))%f64 = true)
  /\ fst (Ieee.pitch_hold f_0_1 zero zero Ieee.zero_pwm_params f_0_01
            Ieee.zero_state) = S754_nan.
Proof. vm_compute. repeat split; reflexivity. Qed.

End ieee.

(** ** The integrator stored by a tick *)

Lemma course_hold_integrator chi_c chi phi_ff r params Ts s :
  let s1 := course_integrated chi_c chi Ts s in
  let unsat := course_effort chi_c chi phi_ff r params s1 in
  c_integrator_ (snd (course_hold chi_c chi phi_ff r params Ts s))
  = anti_windup (c_ki params) Ts (c_integrator_ s1) unsat
      (sat unsat (15 * 3.14 / 180) (-15 * 3.14 / 180)).
Proof.
  unfold course_hold, anti_windup. state_simpl.
  destruct (fabs_ge (c_ki params) 0.00001); reflexivity.
Qed.

Lemma roll_hold_integrator phi_c phi p params Ts s :
  let s1 := roll_integrated phi_c phi Ts s in
  let unsat := roll_effort phi_c phi p params s1 in
  r_integrator (snd (roll_hold phi_c phi p params Ts s))
  = anti_windup (r_ki params) Ts (r_integrator s1) unsat
      (sat unsat (max_a params) (- max_a params)).
Proof.
  unfold roll_hold, anti_windup. state_simpl.
  destruct (fabs_ge (r_ki params) 0.00001); reflexivity.
Qed.

Lemma pitch_hold_integrator theta_c theta q params Ts s :
  let s1 := pitch_integrated theta_c theta Ts s in
  let unsat := pitch_effort theta_c theta q params s1 in
  p_integrator_ (snd (pitch_hold theta_c theta q params Ts s))
  = anti_windup (p_ki params) Ts (p_integrator_ s1) unsat
      (sat unsat (max_e params) (- max_e params)).
Proof.
  unfold pitch_hold, anti_windup. state_simpl.
  destruct (fabs_ge (p_ki params) 0.00001); reflexivity.
Qed.

Lemma airspeed_with_throttle_hold_integrator Va_c Va params Ts s :
  let s1 := airspeed_integrated Va_c Va params Ts s in
  let unsat := airspeed_effort Va_c Va params s1 in
  at_integrator_ (snd (airspeed_with_throttle_hold Va_c Va params Ts s))
  = anti_windup (a_t_ki params) Ts (at_integrator_ s1) unsat
      (sat unsat (max_t params) 0).
Proof.
  unfold airspeed_with_throttle_hold, anti_windup. state_simpl.
  destruct (fabs_ge (a_t_ki params) 0.00001); reflexivity.
Qed.

Lemma altitude_hold_control_integrator h_c h params Ts s :
  let s1 := altitude_integrated h_c h params Ts s in
  let unsat := altitude_effort h_c h params s1 in
  a_integrator_ (snd (altitude_hold_control h_c h params Ts s))
  = anti_windup (a_ki params) Ts (a_integrator_ s1) unsat
      (sat unsat (10 * 3.14 / 180) (-10 * 3.14 / 180)).
Proof.
  unfold altitude_hold_control, altitude_integrated, anti_windup.
  rewrite deadband_test.
  destruct (in_deadband params (h_c - h)); state_simpl;
    destruct (fabs_ge (a_ki params) 0.00001); reflexivity.
Qed.

(** ** The effort recomputed after a tick *)

Lemma back_calculated_unit_period unsat clamped after :
  back_calculated 1 unsat clamped after -> after == clamped.
Proof. unfold back_calculated. intros H. rewrite H. ring. Qed.

Lemma back_calculated_unsaturated Ts unsat after :
  back_calculated Ts unsat unsat after -> after == unsat.
Proof. unfold back_calculated. intros H. rewrite H. ring. Qed.

Lemma course_hold_effort_after chi_c chi phi_ff r params Ts s :
  0.00001 <= Qabs (c_ki params) ->
  back_calculated Ts
    (course_effort chi_c chi phi_ff r params (course_integrated chi_c chi Ts s))
    (fst (course_hold chi_c chi phi_ff r params Ts s))
    (course_effort chi_c chi phi_ff r params
       (snd (course_hold chi_c chi phi_ff r params Ts s))).
Proof.
  intros Hki. apply fabs_ge_true in Hki.
  pose proof (fabs_ge_nonzero _ Hki) as Hnz.
  unfold back_calculated, course_effort at 1.
  rewrite course_hold_integrator, course_hold_output.
  unfold anti_windup. rewrite Hki.
  set (clamped := sat _ _ _).
  unfold course_effort, course_integrated. state_simpl.
  field. exact Hnz.
Qed.

Lemma roll_hold_effort_after phi_c phi p params Ts s :
  0.00001 <= Qabs (r_ki params) ->
  back_calculated Ts
    (roll_effort phi_c phi p params (roll_integrated phi_c phi Ts s))
    (fst (roll_hold phi_c phi p params Ts s))
    (roll_effort phi_c phi p params (snd (roll_hold phi_c phi p params Ts s))).
Proof.
  intros Hki. apply fabs_ge_true in Hki.
  pose proof (fabs_ge_nonzero _ Hki) as Hnz.
  unfold back_calculated, roll_effort at 1.
  rewrite roll_hold_integrator, roll_hold_output.
  unfold anti_windup. rewrite Hki.
  set (clamped := sat _ _ _).
  unfold roll_effort, roll_integrated. state_simpl.
  field. exact Hnz.
Qed.

(** The pitch loop returns the clamped effort negated. *)
Lemma pitch_hold_effort_after theta_c theta q params Ts s :
  0.00001 <= Qabs (p_ki params) ->
  back_calculated Ts
    (pitch_effort theta_c theta q params (pitch_integrated theta_c theta Ts s))
    (- fst (pitch_hold theta_c theta q params Ts s))
    (pitch_effort theta_c theta q params
       (snd (pitch_hold theta_c theta q params Ts s))).
Proof.
  intros Hki. apply fabs_ge_true in Hki.
  pose proof (fabs_ge_nonzero _ Hki) as Hnz.
  unfold back_calculated, pitch_effort at 1.
  rewrite pitch_hold_integrator, pitch_hold_output.
  unfold anti_windup. rewrite Hki.
  set (clamped := sat _ _ _).
  unfold pitch_effort, pitch_integrated. state_simpl.
  set (bias := trim_e params / pwm_rad_e params).
  field. exact Hnz.
Qed.

Lemma airspeed_with_throttle_hold_effort_after Va_c Va params Ts s :
  0.00001 <= Qabs (a_t_ki params) ->
  back_calculated Ts
    (airspeed_effort Va_c Va params (airspeed_integrated Va_c Va params Ts s))
    (fst (airspeed_with_throttle_hold Va_c Va params Ts s))
    (airspeed_effort Va_c Va params
       (snd (airspeed_with_throttle_hold Va_c Va params Ts s))).
Proof.
  intros Hki. apply fabs_ge_true in Hki.
  pose proof (fabs_ge_nonzero _ Hki) as Hnz.
  unfold back_calculated, airspeed_effort at 1.
  rewrite airspeed_with_throttle_hold_integrator, airspeed_with_throttle_hold_output.
  unfold anti_windup. rewrite Hki.
  set (clamped := sat _ _ _).
  replace (at_differentiator_ (snd (airspeed_with_throttle_hold Va_c Va params Ts s)))
    with (at_differentiator_ (airspeed_integrated Va_c Va params Ts s))
    by (unfold airspeed_with_throttle_hold, airspeed_integrated;
        destruct (fabs_ge (a_t_ki params) 0.00001); reflexivity).
  unfold airspeed_effort.
  set (d := at_differentiator_ _). set (i := at_integrator_ _).
  field. exact Hnz.
Qed.

Lemma altitude_hold_control_differentiator h_c h params Ts s :
  a_differentiator_ (snd (altitude_hold_control h_c h params Ts s))
  = a_differentiator_ (altitude_integrated h_c h params Ts s).
Proof.
  unfold altitude_hold_control, altitude_integrated.
  rewrite deadband_test.
  destruct (in_deadband params (h_c - h));
    destruct (fabs_ge (a_ki params) 0.00001); reflexivity.
Qed.

Lemma altitude_hold_control_effort_after h_c h params Ts s :
  0.00001 <= Qabs (a_ki params) ->
  back_calculated Ts
    (altitude_effort h_c h params (altitude_integrated h_c h params Ts s))
    (fst (altitude_hold_control h_c h params Ts s))
    (altitude_effort h_c h params (snd (altitude_hold_control h_c h params Ts s))).
Proof.
  intros Hki. apply fabs_ge_true in Hki.
  pose proof (fabs_ge_nonzero _ Hki) as Hnz.
  unfold back_calculated, altitude_effort at 1.
  rewrite altitude_hold_control_integrator, altitude_hold_control_output,
    altitude_hold_control_differentiator.
  unfold anti_windup. rewrite Hki.
  set (clamped := sat _ _ _).
  unfold altitude_effort.
  set (d := a_differentiator_ _). set (i := a_integrator_ _).
  field. exact Hnz.
Qed.

(** Below the gate, the anti-windup step stores the integrator it found. *)
Lemma anti_windup_skipped ki Ts integrator unsat clamped :
  Qabs ki < 0.00001 -> anti_windup ki Ts integrator unsat clamped = integrator.
Proof. intros H. apply fabs_ge_false in H. unfold anti_windup. now rewrite H. Qed.

(** C2.  For each of the five loops and any tick: when [|Ki| >= 1e-5] the
    effort recomputed without clamping from the state that the tick stores
    equals [unsat + Ts * (clamped - unsat)], where [unsat] is the
    unsaturated and [clamped] the clamped effort of the tick (for the pitch
    loop the clamped effort is the negation of the returned value): it is
    the clamped output when the sample period is 1, and otherwise lies the
    fraction [Ts] of the way from the unsaturated effort to it.  When
    [|Ki| < 1e-5] the tick stores the integrator as the integration step
    left it. *)
Theorem anti_windup_back_calculation (params : params_s) (Ts : Q) (s : state) :
  (forall chi_c chi phi_ff r,
      let s' := snd (course_hold chi_c chi phi_ff r params Ts s) in
      let s1 := course_integrated chi_c chi Ts s in
      (0.00001 <= Qabs (c_ki params) ->
       back_calculated Ts (course_effort chi_c chi phi_ff r params s1)
         (fst (course_hold chi_c chi phi_ff r params Ts s))
         (course_effort chi_c chi phi_ff r params s'))
      /\ (Qabs (c_ki params) < 0.00001 -> c_integrator_ s' = c_integrator_ s1))
  /\ (forall phi_c phi p,
      let s' := snd (roll_hold phi_c phi p params Ts s) in
      let s1 := roll_integrated phi_c phi Ts s in
      (0.00001 <= Qabs (r_ki params) ->
       back_calculated Ts (roll_effort phi_c phi p params s1)
         (fst (roll_hold phi_c phi p params Ts s))
         (roll_effort phi_c phi p params s'))
      /\ (Qabs (r_ki params) < 0.00001 -> r_integrator s' = r_integrator s1))
  /\ (forall theta_c theta q,
      let s' := snd (pitch_hold theta_c theta q params Ts s) in
      let s1 := pitch_integrated theta_c theta Ts s in
      (0.00001 <= Qabs (p_ki params) ->
       back_calculated Ts (pitch_effort theta_c theta q params s1)
         (- fst (pitch_hold theta_c theta q params Ts s))
         (pitch_effort theta_c theta q params s'))
      /\ (Qabs (p_ki params) < 0.00001 -> p_integrator_ s' = p_integrator_ s1))
  /\ (forall Va_c Va,
      let s' := snd (airspeed_with_throttle_hold Va_c Va params Ts s) in
      let s1 := airspeed_integrated Va_c Va params Ts s in
      (0.00001 <= Qabs (a_t_ki params) ->
       back_calculated Ts (airspeed_effort Va_c Va params s1)
         (fst (airspeed_with_throttle_hold Va_c Va params Ts s))
         (airspeed_effort Va_c Va params s'))
      /\ (Qabs (a_t_ki params) < 0.00001 -> at_integrator_ s' = at_integrator_ s1))
  /\ (forall h_c h,
      let s' := snd (altitude_hold_control h_c h params Ts s) in
      let s1 := altitude_integrated h_c h params Ts s in
      (0.00001 <= Qabs (a_ki params) ->
       back_calculated Ts (altitude_effort h_c h params s1)
         (fst (altitude_hold_control h_c h params Ts s))
         (altitude_effort h_c h params s'))
      /\ (Qabs (a_ki params) < 0.00001 -> a_integrator_ s' = a_integrator_ s1)).
Proof.
  repeat apply conj; intros; subst s' s1; split; intros Hki.
  - now apply course_hold_effort_after.
  - rewrite course_hold_integrator. now apply anti_windup_skipped.
  - now apply roll_hold_effort_after.
  - rewrite roll_hold_integrator. now apply anti_windup_skipped.
  - now apply pitch_hold_effort_after.
  - rewrite pitch_hold_integrator. now apply anti_windup_skipped.
  - now apply airspeed_with_throttle_hold_effort_after.
  - rewrite airspeed_with_throttle_hold_integrator. now apply anti_windup_skipped.
  - now apply altitude_hold_control_effort_after.
  - rewrite altitude_hold_control_integrator. now apply anti_windup_skipped.
Qed.

Lemma anti_windup_back_calculation_witness :
  back_calculated 0.01
    (course_effort 1 0 0 0 sample_params (course_integrated 1 0 0.01 zero_state))
    (fst (course_hold 1 0 0 0 sample_params 0.01 zero_state))
    (course_effort 1 0 0 0 sample_params
       (snd (course_hold 1 0 0 0 sample_params 0.01 zero_state)))
  /\ a_integrator_ (snd (altitude_hold_control 1 0 sample_params 0.01 zero_state))
     = a_integrator_ (altitude_integrated 1 0 sample_params 0.01 zero_state).
Proof.
  assert (Hc : 0.00001 <= Qabs (c_ki sample_params)) by (vm_compute; discriminate).
  assert (Ha : Qabs (a_ki sample_params) < 0.00001) by reflexivity.
  destruct (anti_windup_back_calculation sample_params 0.01 zero_state)
    as (Hcourse & _ & _ & _ & Haltitude).
  split.
  - exact (proj1 (Hcourse 1 0 0 0) Hc).
  - exact (proj2 (Haltitude 1 0) Ha).
Defined.

(** Course loop at 100 Hz with unit proportional and integral gain and a
    unit course error: the effort saturates, and the effort recomputed from
    the stored state is 0.9976 where the clamped output is 0.2617. *)
Lemma anti_windup_does_not_reproduce_clamped_output :
  saturates
    (course_effort 1 0 0 0 sample_params (course_integrated 1 0 0.01 zero_state))
    course_limit (- course_limit)
  /\ 0.00001 <= Qabs (c_ki sample_params)
  /\ fst (course_hold 1 0 0 0 sample_params 0.01 zero_state) == 157 # 600
  /\ course_effort 1 0 0 0 sample_params
       (snd (course_hold 1 0 0 0 sample_params 0.01 zero_state)) == 29927 # 30000
  /\ ~ course_effort 1 0 0 0 sample_params
         (snd (course_hold 1 0 0 0 sample_params 0.01 zero_state))
       == fst (course_hold 1 0 0 0 sample_params 0.01 zero_state).
Proof.
  repeat split.
  - left. reflexivity.
  - vm_compute. discriminate.
  - intros H. vm_compute in H. discriminate.
Qed.

(** ** The integrator of the altitude loop *)






(** ** Construction and the exit hooks *)

(** C4.  The constructor body assigns zero to the previous error and the
    integrator of the course, roll and pitch loops; the six members of the
    airspeed and altitude loops keep whatever the object held before the
    body ran, for instance an [at_error_] of 1. *)
Theorem controller_example_assigns_three_loops (s : state) :
  let s' := controller_example s in
  (c_error_ s' = 0 /\ c_integrator_ s' = 0
   /\ r_error_ s' = 0 /\ r_integrator s' = 0
   /\ p_error_ s' = 0 /\ p_integrator_ s' = 0)
  /\ (at_error_ s' = at_error_ s /\ at_integrator_ s' = at_integrator_ s
      /\ at_differentiator_ s' = at_differentiator_ s
      /\ a_error_ s' = a_error_ s /\ a_integrator_ s' = a_integrator_ s
      /\ a_differentiator_ s' = a_differentiator_ s)
  /\ at_error_ (controller_example (set_at_error_ 1 zero_state)) = 1.
Proof. cbv zeta. repeat split. Qed.

(** C7.  The altitude-hold exit hook sets [c_integrator_] to zero and
    leaves the eleven other members as they were, the previous course error
    among them.  The climb exit hook sets the error, integrator and
    differentiator of the airspeed and altitude loops to zero and leaves
    the members of the course, roll and pitch loops as they were. *)
Theorem exit_hooks_frame (s : state) :
  (c_integrator_ (altitude_hold_exit s) = 0
   /\ c_error_ (altitude_hold_exit s) = c_error_ s
   /\ r_error_ (altitude_hold_exit s) = r_error_ s
   /\ r_integrator (altitude_hold_exit s) = r_integrator s
   /\ p_error_ (altitude_hold_exit s) = p_error_ s
   /\ p_integrator_ (altitude_hold_exit s) = p_integrator_ s
   /\ at_error_ (altitude_hold_exit s) = at_error_ s
   /\ at_integrator_ (altitude_hold_exit s) = at_integrator_ s
   /\ at_differentiator_ (altitude_hold_exit s) = at_differentiator_ s
   /\ a_error_ (altitude_hold_exit s) = a_error_ s
   /\ a_integrator_ (altitude_hold_exit s) = a_integrator_ s
   /\ a_differentiator_ (altitude_hold_exit s) = a_differentiator_ s)
  /\ (at_error_ (climb_exit s) = 0
      /\ at_integrator_ (climb_exit s) = 0
      /\ at_differentiator_ (climb_exit s) = 0
      /\ a_error_ (climb_exit s) = 0
      /\ a_integrator_ (climb_exit s) = 0
      /\ a_differentiator_ (climb_exit s) = 0
      /\ c_error_ (climb_exit s) = c_error_ s
      /\ c_integrator_ (climb_exit s) = c_integrator_ s
      /\ r_error_ (climb_exit s) = r_error_ s
      /\ r_integrator (climb_exit s) = r_integrator s
      /\ p_error_ (climb_exit s) = p_error_ s
      /\ p_integrator_ (climb_exit s) = p_integrator_ s).
Proof. repeat split. Qed.

(** C8.  Every call of [altitude_hold_control] stores its altitude error
    [h_c - h] in [at_error_], the previous error of the airspeed loop, and
    leaves [a_error_], the previous error of the altitude loop, as it was. *)
Theorem altitude_hold_control_writes_at_error h_c h params Ts s :
  at_error_ (snd (altitude_hold_control h_c h params Ts s)) = h_c - h
  /\ a_error_ (snd (altitude_hold_control h_c h params Ts s)) = a_error_ s.
Proof.
  unfold altitude_hold_control.
  destruct (Qltb (- alt_hz params + 0.01) (h_c - h)
            && Qltb (h_c - h) (alt_hz params - 0.01));
    destruct (fabs_ge (a_ki params) 0.00001); split; reflexivity.
Qed.

(** ** Shaping of the altitude command *)

Lemma sign_neg (x : Q) : x < 0 -> sign x = -1.
Proof.
  unfold Qlt, sign. cbn. rewrite Z.mul_1_r. intros H.
  now rewrite Z.sgn_neg.
Qed.

Lemma sign_pos (x : Q) : 0 < x -> sign x = 1.
Proof.
  unfold Qlt, sign. cbn. rewrite Z.mul_1_r. intros H.
  now rewrite Z.sgn_pos.
Qed.

(** Beyond a non-negative threshold [m], the command is moved to the
    distance [m] from the altitude, on the side of the raw command. *)
Lemma copysign_sign (m d : Q) :
  0 <= m -> m < Qabs d -> copysign m d == sign d * m.
Proof.
  intros Hm Hd. unfold copysign.
  case_Qltb d 0.
  - rewrite (sign_neg d E), (Qabs_pos m Hm). ring.
  - assert (Hpos : 0 < d).
    { rewrite Qabs_pos in Hd by exact E. lra. }
    rewrite (sign_pos d Hpos), (Qabs_pos m Hm). ring.
Qed.

Lemma climb_command params input s :
  theta_c (fst (climb params input s))
  = fst (altitude_hold_control (climb_adjusted_hc params input) (h input) params
           (Ts input)
           (snd (airspeed_with_throttle_hold (Va_c input) (va input) params
                   (Ts input) s))).
Proof.
  unfold climb.
  destruct (airspeed_with_throttle_hold _ _ _ _ s) as [dt s1].
  cbn [snd]. destruct (altitude_hold_control _ _ _ _ s1) as [tc s2].
  destruct (pitch_hold _ _ _ _ _ s2) as [de s3].
  destruct (roll_hold _ _ _ _ _ s3) as [da s4]. reflexivity.
Qed.

Lemma altitude_hold_command params input s :
  theta_c (fst (altitude_hold params input s))
  = fst (altitude_hold_control (altitude_hold_adjusted_hc params input) (h input)
           params (Ts input)
           (snd (airspeed_with_throttle_hold (Va_c input) (va input) params
                   (Ts input) s))).
Proof.
  unfold altitude_hold.
  destruct (airspeed_with_throttle_hold _ _ _ _ s) as [dt s1].
  cbn [snd]. destruct (altitude_hold_control _ _ _ _ s1) as [tc s2].
  destruct (course_hold _ _ _ _ _ _ s2) as [pc s3].
  destruct (roll_hold _ _ _ _ _ s3) as [da s4].
  destruct (pitch_hold _ _ _ _ _ s4) as [de s5]. reflexivity.
Qed.

(** C5.  With hold-zone half-width [H = alt_hz]: the climb handler gives
    the altitude loop the raw command [h_c] when [|h_c - h| <= H/2], and
    otherwise the command [h + copysign (H/2) (h_c - h)], which for the
    non-negative [H] of a half-width is [h + sign (h_c - h) * H/2]; the
    altitude-hold handler does the same with the threshold [H] in place of
    [H/2]. *)
Theorem altitude_command_shaping params input s :
  (theta_c (fst (climb params input s))
   = fst (altitude_hold_control (climb_adjusted_hc params input) (h input) params
            (Ts input)
            (snd (airspeed_with_throttle_hold (Va_c input) (va input) params
                    (Ts input) s)))
   /\ (Qabs (h_c input - h input) <= alt_hz params / 2 ->
       climb_adjusted_hc params input = h_c input)
   /\ (alt_hz params / 2 < Qabs (h_c input - h input) ->
       climb_adjusted_hc params input
       = h input + copysign (alt_hz params / 2) (h_c input - h input))
   /\ (0 <= alt_hz params ->
       alt_hz params / 2 < Qabs (h_c input - h input) ->
       climb_adjusted_hc params input
       == h input + sign (h_c input - h input) * (alt_hz params / 2)))
  /\ (theta_c (fst (altitude_hold params input s))
      = fst (altitude_hold_control (altitude_hold_adjusted_hc params input) (h input)
               params (Ts input)
               (snd (airspeed_with_throttle_hold (Va_c input) (va input) params
                       (Ts input) s)))
      /\ (Qabs (h_c input - h input) <= alt_hz params ->
          altitude_hold_adjusted_hc params input = h_c input)
      /\ (alt_hz params < Qabs (h_c input - h input) ->
          altitude_hold_adjusted_hc params input
          = h input + copysign (alt_hz params) (h_c input - h input))
      /\ (0 <= alt_hz params ->
          alt_hz params < Qabs (h_c input - h input) ->
          altitude_hold_adjusted_hc params input
          == h input + sign (h_c input - h input) * alt_hz params)).
Proof.
  split; (split; [|split; [|split]]).
  - apply climb_command.
  - intros Hd. unfold climb_adjusted_hc. apply Qltb_ge in Hd. now rewrite Hd.
  - intros Hd. unfold climb_adjusted_hc. apply Qltb_lt in Hd. now rewrite Hd.
  - intros HH Hd. unfold climb_adjusted_hc.
    assert (Hhalf : 0 <= alt_hz params / 2).
    { apply Qle_shift_div_l; [reflexivity | lra]. }
    rewrite (proj2 (Qltb_lt _ _) Hd).
    rewrite (copysign_sign _ _ Hhalf Hd). reflexivity.
  - apply altitude_hold_command.
  - intros Hd. unfold altitude_hold_adjusted_hc. apply Qltb_ge in Hd. now rewrite Hd.
  - intros Hd. unfold altitude_hold_adjusted_hc. apply Qltb_lt in Hd. now rewrite Hd.
  - intros HH Hd. unfold altitude_hold_adjusted_hc.
    rewrite (proj2 (Qltb_lt _ _) Hd).
    rewrite (copysign_sign _ _ HH Hd). reflexivity.
Qed.

Lemma altitude_command_shaping_witness :
  climb_adjusted_hc sample_params sample_input
  == h sample_input + sign (h_c sample_input - h sample_input)
                      * (alt_hz sample_params / 2)
  /\ climb_adjusted_hc sample_params sample_input == 5
  /\ altitude_hold_adjusted_hc sample_params sample_input == 10.
Proof.
  assert (HH : 0 <= alt_hz sample_params) by (vm_compute; discriminate).
  assert (Hd : alt_hz sample_params / 2 < Qabs (h_c sample_input - h sample_input))
    by reflexivity.
  destruct (altitude_command_shaping sample_params sample_input zero_state)
    as ((_ & _ & _ & Hclimb) & _).
  split; [exact (Hclimb HH Hd) | split; reflexivity].
Defined.

(** ** The take-off handler *)

(** C6.  The take-off handler sets the rudder and the commanded roll to
    zero, commands the constant pitch [3 * 3.14 / 180] whatever the
    altitudes are, and sets the throttle to the output of the
    airspeed-via-throttle loop clamped by [sat] to
    [max_takeoff_throttle], with the lower limit 0.  That loop output is
    itself the effort of the loop clamped by [sat] to [max_t], with the
    lower limit 0: the general throttle maximum is applied before the
    one of the take-off. *)
Theorem take_off_outputs params input s :
  let out := fst (take_off params input s) in
  let s1 := snd (roll_hold 0 (phi input) (p input) params (Ts input) s) in
  let throttle :=
    fst (airspeed_with_throttle_hold (Va_c input) (va input) params (Ts input) s1) in
  delta_r out = 0
  /\ phi_c out = 0
  /\ theta_c out = 3 * 3.14 / 180
  /\ delta_t out = sat throttle (max_takeoff_throttle params) 0
  /\ throttle
     = sat (airspeed_effort (Va_c input) (va input) params
              (airspeed_integrated (Va_c input) (va input) params (Ts input) s1))
           (max_t params) 0.
Proof.
  intros out s1 throttle. subst out s1 throttle.
  unfold take_off.
  destruct (roll_hold 0 (phi input) (p input) params (Ts input) s) as [da s1].
  cbn [snd].
  pose proof (airspeed_with_throttle_hold_output (Va_c input) (va input) params
                (Ts input) s1) as Hout.
  destruct (airspeed_with_throttle_hold _ _ _ _ s1) as [throttle s2].
  destruct (pitch_hold _ _ _ _ _ s2) as [de s3].
  cbn [fst delta_r phi_c theta_c delta_t] in *.
  repeat split; exact Hout.
Qed.

(** Two parameter sets that differ in [max_t] alone, 1 and 0.5, with
    [max_takeoff_throttle] at 0.8 in both: the take-off throttle is 0.8
    with the first and 0.5, the value of [max_t], with the second. *)
Lemma take_off_throttle_depends_on_max_t :
  max_takeoff_throttle (with_max_t 0.5 sample_params)
  = max_takeoff_throttle sample_params
  /\ delta_t (fst (take_off sample_params sample_input zero_state)) = 0.8
  /\ delta_t (fst (take_off (with_max_t 0.5 sample_params) sample_input zero_state))
     = 0.5
  /\ ~ delta_t (fst (take_off (with_max_t 0.5 sample_params) sample_input zero_state))
       == delta_t (fst (take_off sample_params sample_input zero_state)).
Proof.
  repeat split.
  intros H. vm_compute in H. discriminate.
Qed.

(** ** The parameter callback *)

Lemma declare_param_declared (param_name : string) (value : param_variant)
    (pm : param_manager) :
  declared param_name (declare_param param_name value pm).
Proof. unfold declared, declare_param. cbn. rewrite lookup_insert_eq. eauto. Qed.

Lemma store_parameter_params (param : rclcpp_Parameter) (pm : param_manager) :
  params_ (store_parameter param pm)
  = match stored_value param with
    | Some v => <[get_name param := v]> (params_ pm)
    | None => params_ pm
    end.
Proof.
  unfold store_parameter, stored_value.
  destruct (get_parameter_value param); reflexivity.
Qed.

(** Storing a parameter under a declared name declares no new name and
    removes none. *)
Lemma store_parameter_declared (param : rclcpp_Parameter) (pm : param_manager)
    (name : string) :
  declared (get_name param) pm ->
  declared name (store_parameter param pm) <-> declared name pm.
Proof.
  unfold declared. intros Hdecl. rewrite store_parameter_params.
  destruct (stored_value param) as [v|]; [|reflexivity].
  rewrite lookup_insert_is_Some.
  split; [|destruct (decide (get_name param = name)); auto].
  intros [<-|[_ H]]; assumption.
Qed.

Lemma apply_parameters_cons (param : rclcpp_Parameter)
    (rest : list rclcpp_Parameter) (pm : param_manager) :
  apply_parameters (param :: rest) (params_ pm)
  = apply_parameters rest (params_ (store_parameter param pm)).
Proof. unfold apply_parameters. cbn [foldl]. now rewrite store_parameter_params. Qed.

Lemma set_parameters_callback_declared (parameters : list rclcpp_Parameter)
    (pm : param_manager) :
  Forall (fun param => declared (get_name param) pm) parameters ->
  fst (set_parameters_callback parameters pm) = true
  /\ params_ (snd (set_parameters_callback parameters pm))
     = apply_parameters parameters (params_ pm).
Proof.
  revert pm. induction parameters as [|param rest IH]; intros pm Hall.
  - split; reflexivity.
  - apply Forall_cons in Hall as [Hparam Hrest].
    rewrite apply_parameters_cons. cbn [set_parameters_callback].
    destruct Hparam as [v Hv]. unfold declared in *. rewrite Hv.
    apply IH. eapply Forall_impl; [exact Hrest|].
    intros param' Hd. apply store_parameter_declared; [|exact Hd].
    unfold declared. rewrite Hv. eauto.
Qed.



(** The entry of a name after the assignments of a vector: the value of
    the last parameter stored under it. *)
Lemma apply_parameters_other (parameters : list rclcpp_Parameter)
    (m : gmap string param_variant) (name : string) :
  Forall (fun param => get_name param ≠ name) parameters ->
  apply_parameters parameters m !! name = m !! name.
Proof.
  revert m. induction parameters as [|param rest IH]; intros m Hall.
  - reflexivity.
  - apply Forall_cons in Hall as [Hparam Hrest].
    unfold apply_parameters in *. cbn [foldl]. rewrite (IH _ Hrest).
    destruct (stored_value param); [|reflexivity].
    now apply lookup_insert_ne.
Qed.

Lemma apply_parameters_app (pre post : list rclcpp_Parameter)
    (m : gmap string param_variant) :
  apply_parameters (pre ++ post) m = apply_parameters post (apply_parameters pre m).
Proof. unfold apply_parameters. apply foldl_app. Qed.

Lemma apply_parameters_last (pre post : list rclcpp_Parameter)
    (param : rclcpp_Parameter) (v : param_variant) (m : gmap string param_variant) :
  stored_value param = Some v ->
  Forall (fun param' => get_name param' ≠ get_name param) post ->
  apply_parameters (pre ++ param :: post) m !! get_name param = Some v.
Proof.
  intros Hv Hpost. rewrite apply_parameters_app.
  change (param :: post) with ([param] ++ post).
  rewrite apply_parameters_app, (apply_parameters_other _ _ _ Hpost).
  unfold apply_parameters at 1. cbn [foldl]. rewrite Hv.
  apply lookup_insert_eq.
Qed.

Example set_parameters_callback_all_declared :
  fst (set_parameters_callback [set_alt_hz; set_max_t] sample_manager) = true
  /\ params_ (snd (set_parameters_callback [set_alt_hz; set_max_t] sample_manager))
     !! "alt_hz" = Some (v_double 20)
  /\ params_ (snd (set_parameters_callback [set_alt_hz; set_max_t] sample_manager))
     !! "max_t" = Some (v_double 0.5).
Proof. repeat split; vm_compute; reflexivity. Qed.




(** * Further properties of [controller_example.cpp] *)

(** ** The saturation primitive *)

(** X1.  Clamping a clamped value changes nothing. *)
Theorem sat_idempotent (value upper lower : Q) :
  lower <= upper ->
  sat (sat value upper lower) upper lower = sat value upper lower.
Proof.
  intros Hb. apply sat_inside. now apply sat_in_range.
Qed.

Lemma sat_idempotent_witness :
  sat (sat 20 15 (-15)) 15 (-15) = sat 20 15 (-15).
Proof.
  assert (Hb : -15 <= 15) by (vm_compute; discriminate).
  exact (sat_idempotent 20 15 (-15) Hb).
Defined.

(** X2.  A larger value never gives a smaller clamped value. *)
Theorem sat_monotone (v1 v2 upper lower : Q) :
  lower <= upper -> v1 <= v2 -> sat v1 upper lower <= sat v2 upper lower.
Proof.
  intros Hb Hv. unfold sat.
  case_Qltb upper v1; case_Qltb upper v2; try lra;
    case_Qltb v1 lower; try lra; case_Qltb v2 lower; lra.
Qed.

Lemma sat_monotone_witness : sat 5 15 (-15) <= sat 20 15 (-15).
Proof.
  assert (Hb : -15 <= 15) by (vm_compute; discriminate).
  assert (Hv : 5 <= 20) by (vm_compute; discriminate).
  exact (sat_monotone 5 20 15 (-15) Hb Hv).
Defined.



(** ** The members a loop touches *)

Ltac loop_frame f ki :=
  unfold f, course_members, roll_members, pitch_members, airspeed_members,
    altitude_members;
  destruct (fabs_ge ki 0.00001); repeat split; reflexivity.

Lemma course_hold_frame chi_c chi phi_ff r params Ts s :
  let s' := snd (course_hold chi_c chi phi_ff r params Ts s) in
  roll_members s' = roll_members s /\ pitch_members s' = pitch_members s
  /\ airspeed_members s' = airspeed_members s
  /\ altitude_members s' = altitude_members s.
Proof. loop_frame course_hold (c_ki params). Qed.

Lemma roll_hold_frame phi_c phi p params Ts s :
  let s' := snd (roll_hold phi_c phi p params Ts s) in
  course_members s' = course_members s /\ pitch_members s' = pitch_members s
  /\ airspeed_members s' = airspeed_members s
  /\ altitude_members s' = altitude_members s.
Proof. loop_frame roll_hold (r_ki params). Qed.

Lemma pitch_hold_frame theta_c theta q params Ts s :
  let s' := snd (pitch_hold theta_c theta q params Ts s) in
  course_members s' = course_members s /\ roll_members s' = roll_members s
  /\ airspeed_members s' = airspeed_members s
  /\ altitude_members s' = altitude_members s.
Proof. loop_frame pitch_hold (p_ki params). Qed.

Lemma airspeed_with_throttle_hold_frame Va_c Va params Ts s :
  let s' := snd (airspeed_with_throttle_hold Va_c Va params Ts s) in
  course_members s' = course_members s /\ roll_members s' = roll_members s
  /\ pitch_members s' = pitch_members s
  /\ altitude_members s' = altitude_members s.
Proof. loop_frame airspeed_with_throttle_hold (a_t_ki params). Qed.

Lemma altitude_hold_control_frame h_c h params Ts s :
  let s' := snd (altitude_hold_control h_c h params Ts s) in
  course_members s' = course_members s /\ roll_members s' = roll_members s
  /\ pitch_members s' = pitch_members s
  /\ at_integrator_ s' = at_integrator_ s
  /\ at_differentiator_ s' = at_differentiator_ s
  /\ a_error_ s' = a_error_ s.
Proof.
  unfold altitude_hold_control, course_members, roll_members, pitch_members.
  destruct (Qltb (- alt_hz params + 0.01) (h_c - h)
            && Qltb (h_c - h) (alt_hz params - 0.01));
    destruct (fabs_ge (a_ki params) 0.00001); repeat split; reflexivity.
Qed.

(** X4.  Each of the course, roll, pitch and airspeed loops stores its error as
    its own previous error and leaves the members of the four other loops
    as they were. *)
Theorem loops_own_members params Ts s :
  (forall chi_c chi phi_ff r,
      let s' := snd (course_hold chi_c chi phi_ff r params Ts s) in
      c_error_ s' = chi_c - chi
      /\ roll_members s' = roll_members s /\ pitch_members s' = pitch_members s
      /\ airspeed_members s' = airspeed_members s
      /\ altitude_members s' = altitude_members s)
  /\ (forall phi_c phi p,
      let s' := snd (roll_hold phi_c phi p params Ts s) in
      r_error_ s' = phi_c - phi
      /\ course_members s' = course_members s /\ pitch_members s' = pitch_members s
      /\ airspeed_members s' = airspeed_members s
      /\ altitude_members s' = altitude_members s)
  /\ (forall theta_c theta q,
      let s' := snd (pitch_hold theta_c theta q params Ts s) in
      p_error_ s' = theta_c - theta
      /\ course_members s' = course_members s /\ roll_members s' = roll_members s
      /\ airspeed_members s' = airspeed_members s
      /\ altitude_members s' = altitude_members s)
  /\ (forall Va_c Va,
      let s' := snd (airspeed_with_throttle_hold Va_c Va params Ts s) in
      at_error_ s' = Va_c - Va
      /\ course_members s' = course_members s /\ roll_members s' = roll_members s
      /\ pitch_members s' = pitch_members s
      /\ altitude_members s' = altitude_members s).
Proof.
  repeat apply conj; intros; subst s'.
  - split; [|apply course_hold_frame].
    unfold course_hold. destruct (fabs_ge (c_ki params) 0.00001); reflexivity.
  - split; [|apply roll_hold_frame].
    unfold roll_hold. destruct (fabs_ge (r_ki params) 0.00001); reflexivity.
  - split; [|apply pitch_hold_frame].
    unfold pitch_hold. destruct (fabs_ge (p_ki params) 0.00001); reflexivity.
  - split; [|apply airspeed_with_throttle_hold_frame].
    unfold airspeed_with_throttle_hold.
    destruct (fabs_ge (a_t_ki params) 0.00001); reflexivity.
Qed.

(** X5.  The roll and pitch loops, and the course and pitch loops, give the same
    outputs and the same final state in either order of the two calls. *)
Theorem lateral_and_pitch_loops_commute params Ts s :
  (forall phi_c phi p theta_c theta q,
      (let '(a, s1) := roll_hold phi_c phi p params Ts s in
       let '(e, s2) := pitch_hold theta_c theta q params Ts s1 in (a, e, s2))
      = (let '(e, s1) := pitch_hold theta_c theta q params Ts s in
         let '(a, s2) := roll_hold phi_c phi p params Ts s1 in (a, e, s2)))
  /\ (forall chi_c chi phi_ff r theta_c theta q,
      (let '(c, s1) := course_hold chi_c chi phi_ff r params Ts s in
       let '(e, s2) := pitch_hold theta_c theta q params Ts s1 in (c, e, s2))
      = (let '(e, s1) := pitch_hold theta_c theta q params Ts s in
         let '(c, s2) := course_hold chi_c chi phi_ff r params Ts s1 in (c, e, s2))).
Proof.
  split; intros.
  - unfold roll_hold, pitch_hold.
    destruct (fabs_ge (r_ki params) 0.00001), (fabs_ge (p_ki params) 0.00001);
      reflexivity.
  - unfold course_hold, pitch_hold.
    destruct (fabs_ge (c_ki params) 0.00001), (fabs_ge (p_ki params) 0.00001);
      reflexivity.
Qed.

(** ** The handlers as sequences of loop calls *)

Lemma take_off_calls params input s :
  let r1 := roll_hold 0 (phi input) (p input) params (Ts input) s in
  let r2 := airspeed_with_throttle_hold (Va_c input) (va input) params (Ts input)
              (snd r1) in
  let r3 := pitch_hold (3 * 3.14 / 180) (theta input) (q input) params (Ts input)
              (snd r2) in
  take_off params input s
  = ({| delta_e := fst r3; delta_a := fst r1; delta_r := 0;
        delta_t := sat (fst r2) (max_takeoff_throttle params) 0;
        phi_c := 0; theta_c := 3 * 3.14 / 180 |}, snd r3).
Proof.
  cbv zeta. unfold take_off.
  destruct (roll_hold _ _ _ _ _ s) as [da s1]. cbn [fst snd].
  destruct (airspeed_with_throttle_hold _ _ _ _ s1) as [dt s2]. cbn [fst snd].
  destruct (pitch_hold _ _ _ _ _ s2) as [de s3]. reflexivity.
Qed.

Lemma climb_calls params input s :
  let r1 := airspeed_with_throttle_hold (Va_c input) (va input) params (Ts input) s in
  let r2 := altitude_hold_control (climb_adjusted_hc params input) (h input) params
              (Ts input) (snd r1) in
  let r3 := pitch_hold (fst r2) (theta input) (q input) params (Ts input) (snd r2) in
  let r4 := roll_hold 0 (phi input) (p input) params (Ts input) (snd r3) in
  climb params input s
  = ({| delta_e := fst r3; delta_a := fst r4; delta_r := 0; delta_t := fst r1;
        phi_c := 0; theta_c := fst r2 |}, snd r4).
Proof.
  cbv zeta. unfold climb.
  destruct (airspeed_with_throttle_hold _ _ _ _ s) as [dt s1]. cbn [fst snd].
  destruct (altitude_hold_control _ _ _ _ s1) as [tc s2]. cbn [fst snd].
  destruct (pitch_hold _ _ _ _ _ s2) as [de s3]. cbn [fst snd].
  destruct (roll_hold _ _ _ _ _ s3) as [da s4]. reflexivity.
Qed.

Lemma altitude_hold_calls params input s :
  let r1 := airspeed_with_throttle_hold (Va_c input) (va input) params (Ts input) s in
  let r2 := altitude_hold_control (altitude_hold_adjusted_hc params input) (h input)
              params (Ts input) (snd r1) in
  let r3 := course_hold (chi_c input) (chi input) (phi_ff input) (r input) params
              (Ts input) (snd r2) in
  let r4 := roll_hold (fst r3) (phi input) (p input) params (Ts input) (snd r3) in
  let r5 := pitch_hold (fst r2) (theta input) (q input) params (Ts input) (snd r4) in
  altitude_hold params input s
  = ({| delta_e := fst r5; delta_a := fst r4; delta_r := 0; delta_t := fst r1;
        phi_c := fst r3; theta_c := fst r2 |}, snd r5).
Proof.
  cbv zeta. unfold altitude_hold.
  destruct (airspeed_with_throttle_hold _ _ _ _ s) as [dt s1]. cbn [fst snd].
  destruct (altitude_hold_control _ _ _ _ s1) as [tc s2]. cbn [fst snd].
  destruct (course_hold _ _ _ _ _ _ s2) as [pc s3]. cbn [fst snd].
  destruct (roll_hold _ _ _ _ _ s3) as [da s4]. cbn [fst snd].
  destruct (pitch_hold _ _ _ _ _ s4) as [de s5]. reflexivity.
Qed.

(** ** What the handlers read and write *)

Lemma members_fields (s s' : state) :
  (course_members s' = course_members s ->
   c_error_ s' = c_error_ s /\ c_integrator_ s' = c_integrator_ s)
  /\ (airspeed_members s' = airspeed_members s ->
      at_error_ s' = at_error_ s /\ at_integrator_ s' = at_integrator_ s
      /\ at_differentiator_ s' = at_differentiator_ s)
  /\ (altitude_members s' = altitude_members s ->
      a_error_ s' = a_error_ s /\ a_integrator_ s' = a_integrator_ s
      /\ a_differentiator_ s' = a_differentiator_ s).
Proof.
  unfold course_members, airspeed_members, altitude_members.
  repeat split; congruence.
Qed.

(** X7.  [take_off] reads the sample period, the roll angle and rate, the
    airspeeds and the pitch angle and rate only: two inputs that agree on
    these give the same outputs and the same state, whatever their
    altitudes, courses, feed-forward roll and yaw rate.  It leaves the
    members of the course and altitude loops as they were. *)
Theorem take_off_reads_and_writes params input s :
  (forall input',
      Ts input' = Ts input -> phi input' = phi input -> p input' = p input ->
      Va_c input' = Va_c input -> va input' = va input ->
      theta input' = theta input -> q input' = q input ->
      take_off params input' s = take_off params input s)
  /\ course_members (snd (take_off params input s)) = course_members s
  /\ altitude_members (snd (take_off params input s)) = altitude_members s.
Proof.
  split; [|split].
  - intros input' HTs Hphi Hp HVa_c Hva Htheta Hq.
    unfold take_off. now rewrite HTs, Hphi, Hp, HVa_c, Hva, Htheta, Hq.
  - rewrite take_off_calls. cbn [snd].
    rewrite (proj1 (pitch_hold_frame _ _ _ _ _ _)).
    rewrite (proj1 (airspeed_with_throttle_hold_frame _ _ _ _ _)).
    apply roll_hold_frame.
  - rewrite take_off_calls. cbn [snd].
    rewrite (proj2 (proj2 (proj2 (pitch_hold_frame _ _ _ _ _ _)))).
    rewrite (proj2 (proj2 (proj2 (airspeed_with_throttle_hold_frame _ _ _ _ _)))).
    apply roll_hold_frame.
Qed.

Lemma take_off_reads_and_writes_witness :
  take_off sample_params sample_input_level zero_state
  = take_off sample_params sample_input zero_state.
Proof.
  exact (proj1 (take_off_reads_and_writes sample_params sample_input zero_state)
           sample_input_level eq_refl eq_refl eq_refl eq_refl eq_refl eq_refl
           eq_refl).
Defined.

(** X8.  After [take_off] the previous error of the airspeed loop is the
    airspeed error of the tick; after [climb] and [altitude_hold] it is the
    altitude error of the shaped command, which the altitude loop stored
    over it. *)
Theorem airspeed_previous_error_after_tick params input s :
  at_error_ (snd (take_off params input s)) = Va_c input - va input
  /\ at_error_ (snd (climb params input s))
     = climb_adjusted_hc params input - h input
  /\ at_error_ (snd (altitude_hold params input s))
     = altitude_hold_adjusted_hc params input - h input.
Proof.
  rewrite take_off_calls, climb_calls, altitude_hold_calls. cbn [snd].
  split; [|split].
  - destruct (pitch_hold_frame (3 * 3.14 / 180) (theta input) (q input) params
                (Ts input)
                (snd (airspeed_with_throttle_hold (Va_c input) (va input) params
                        (Ts input)
                        (snd (roll_hold 0 (phi input) (p input) params (Ts input) s)))))
      as (_ & _ & Hat & _).
    apply members_fields in Hat as [-> _].
    unfold airspeed_with_throttle_hold.
    destruct (fabs_ge (a_t_ki params) 0.00001); reflexivity.
  - match goal with |- at_error_ (snd (roll_hold ?a ?b ?c ?d ?e ?s0)) = _ =>
      destruct (roll_hold_frame a b c d e s0) as (_ & _ & Hat & _) end.
    apply members_fields in Hat as [-> _].
    match goal with |- at_error_ (snd (pitch_hold ?a ?b ?c ?d ?e ?s0)) = _ =>
      destruct (pitch_hold_frame a b c d e s0) as (_ & _ & Hat & _) end.
    apply members_fields in Hat as [-> _].
    unfold altitude_hold_control.
    destruct (Qltb _ _ && Qltb _ _); destruct (fabs_ge (a_ki params) 0.00001);
      reflexivity.
  - match goal with |- at_error_ (snd (pitch_hold ?a ?b ?c ?d ?e ?s0)) = _ =>
      destruct (pitch_hold_frame a b c d e s0) as (_ & _ & Hat & _) end.
    apply members_fields in Hat as [-> _].
    match goal with |- at_error_ (snd (roll_hold ?a ?b ?c ?d ?e ?s0)) = _ =>
      destruct (roll_hold_frame a b c d e s0) as (_ & _ & Hat & _) end.
    apply members_fields in Hat as [-> _].
    match goal with |- at_error_ (snd (course_hold ?a ?b ?c ?d ?e ?f ?s0)) = _ =>
      destruct (course_hold_frame a b c d e f s0) as (_ & _ & Hat & _) end.
    apply members_fields in Hat as [-> _].
    unfold altitude_hold_control.
    destruct (Qltb _ _ && Qltb _ _); destruct (fabs_ge (a_ki params) 0.00001);
      reflexivity.
Qed.

(** ** The previous error of the altitude loop *)

Lemma handlers_keep_a_error_ params input s :
  a_error_ (snd (take_off params input s)) = a_error_ s
  /\ a_error_ (snd (climb params input s)) = a_error_ s
  /\ a_error_ (snd (altitude_hold params input s)) = a_error_ s.
Proof.
  assert (Hloop :
    (forall a b c d s0, a_error_ (snd (roll_hold a b c params d s0)) = a_error_ s0)
    /\ (forall a b c d s0, a_error_ (snd (pitch_hold a b c params d s0)) = a_error_ s0)
    /\ (forall a b c d e s0,
           a_error_ (snd (course_hold a b c d params e s0)) = a_error_ s0)
    /\ (forall a b c s0,
           a_error_ (snd (airspeed_with_throttle_hold a b params c s0)) = a_error_ s0)
    /\ (forall a b c s0,
           a_error_ (snd (altitude_hold_control a b params c s0)) = a_error_ s0)).
  { repeat split; intros.
    - apply (members_fields s0), roll_hold_frame.
    - apply (members_fields s0), pitch_hold_frame.
    - apply (members_fields s0), course_hold_frame.
    - apply (members_fields s0), airspeed_with_throttle_hold_frame.
    - apply altitude_hold_control_frame. }
  destruct Hloop as (Hr & Hp & Hc & Hat & Ha).
  rewrite take_off_calls, climb_calls, altitude_hold_calls. cbn [snd].
  repeat split.
  - now rewrite Hp, Hat, Hr.
  - now rewrite Hr, Hp, Ha, Hat.
  - now rewrite Hp, Hr, Hc, Ha, Hat.
Qed.

(** X9.  No handler and no loop assigns [a_error_]: over any sequence of calls
    of the handlers and exit hooks, with any inputs, [a_error_] is zero at
    the end when [climb_exit] was among the calls, and otherwise is what it
    was at the start. *)
Theorem a_error_never_updated params calls s :
  (In call_climb_exit calls -> a_error_ (perform_all params calls s) = 0)
  /\ (~ In call_climb_exit calls ->
      a_error_ (perform_all params calls s) = a_error_ s).
Proof.
  assert (Hstep : forall c s0,
             a_error_ (perform params c s0)
             = match c with call_climb_exit => 0 | _ => a_error_ s0 end).
  { intros c s0. destruct c as [input| |input| |input| ]; cbn [perform].
    - exact (proj1 (handlers_keep_a_error_ params input s0)).
    - reflexivity.
    - exact (proj1 (proj2 (handlers_keep_a_error_ params input s0))).
    - reflexivity.
    - exact (proj2 (proj2 (handlers_keep_a_error_ params input s0))).
    - reflexivity. }
  unfold perform_all. revert s.
  induction calls as [|c rest IH] using rev_ind; intros s.
  - split; [intros []|reflexivity].
  - rewrite foldl_app. cbn [foldl]. rewrite Hstep. split.
    + intros Hin.
      assert (Hrest : c <> call_climb_exit -> In call_climb_exit rest).
      { intros Hc. apply in_app_or in Hin as [Hin|[Hin|[]]];
          [exact Hin | congruence]. }
      destruct c; try (apply IH, Hrest; discriminate). reflexivity.
    + intros Hnot. destruct c;
        try (apply IH; intros Hin; apply Hnot, in_or_app; left; exact Hin).
      exfalso. apply Hnot, in_or_app. right. left. reflexivity.
Qed.

Lemma a_error_never_updated_witness :
  a_error_ (perform_all sample_params
              [call_take_off sample_input; call_climb_exit;
               call_altitude_hold sample_input]
              (set_a_error_ 1 zero_state)) = 0
  /\ a_error_ (perform_all sample_params
                 [call_climb sample_input; call_altitude_hold sample_input]
                 (set_a_error_ 1 zero_state))
     = a_error_ (set_a_error_ 1 zero_state).
Proof.
  split.
  - apply (a_error_never_updated sample_params). right. left. reflexivity.
  - apply (a_error_never_updated sample_params).
    intros [H|[H|[]]]; discriminate H.
Defined.

(** ** The shaped altitude command and the integrator *)







(** ** Ticks that do not saturate *)

Lemma anti_windup_unsaturated (ki Ts integrator unsat : Q) :
  anti_windup ki Ts integrator unsat unsat == integrator.
Proof. unfold anti_windup. destruct (fabs_ge ki 0.00001); ring. Qed.

Lemma sat_inside_eq (value upper lower upper' lower' : Q) :
  lower' == lower -> upper' == upper ->
  in_range lower' upper' value -> sat value upper lower = value.
Proof.
  intros Hl Hu [H1 H2]. apply sat_inside. split; [rewrite <- Hl | rewrite <- Hu];
    assumption.
Qed.

(** X13.  When the unsaturated effort of a tick lies within the bounds of the
    loop, the loop returns that effort (negated by the pitch loop) and the
    anti-windup step leaves the integrator at the value the integration
    step gave it, whatever the integral gain. *)
Theorem unsaturated_tick params Ts s :
  (forall chi_c chi phi_ff r,
      let s1 := course_integrated chi_c chi Ts s in
      let unsat := course_effort chi_c chi phi_ff r params s1 in
      in_range (- course_limit) course_limit unsat ->
      fst (course_hold chi_c chi phi_ff r params Ts s) = unsat
      /\ c_integrator_ (snd (course_hold chi_c chi phi_ff r params Ts s))
         == c_integrator_ s1)
  /\ (forall phi_c phi p,
      let s1 := roll_integrated phi_c phi Ts s in
      let unsat := roll_effort phi_c phi p params s1 in
      in_range (- max_a params) (max_a params) unsat ->
      fst (roll_hold phi_c phi p params Ts s) = unsat
      /\ r_integrator (snd (roll_hold phi_c phi p params Ts s)) == r_integrator s1)
  /\ (forall theta_c theta q,
      let s1 := pitch_integrated theta_c theta Ts s in
      let unsat := pitch_effort theta_c theta q params s1 in
      in_range (- max_e params) (max_e params) unsat ->
      fst (pitch_hold theta_c theta q params Ts s) = - unsat
      /\ p_integrator_ (snd (pitch_hold theta_c theta q params Ts s))
         == p_integrator_ s1)
  /\ (forall Va_c Va,
      let s1 := airspeed_integrated Va_c Va params Ts s in
      let unsat := airspeed_effort Va_c Va params s1 in
      in_range 0 (max_t params) unsat ->
      fst (airspeed_with_throttle_hold Va_c Va params Ts s) = unsat
      /\ at_integrator_ (snd (airspeed_with_throttle_hold Va_c Va params Ts s))
         == at_integrator_ s1)
  /\ (forall h_c h,
      let s1 := altitude_integrated h_c h params Ts s in
      let unsat := altitude_effort h_c h params s1 in
      in_range (- altitude_limit) altitude_limit unsat ->
      fst (altitude_hold_control h_c h params Ts s) = unsat
      /\ a_integrator_ (snd (altitude_hold_control h_c h params Ts s))
         == a_integrator_ s1).
Proof.
  repeat apply conj; intros; subst s1 unsat.
  - rewrite course_hold_integrator, course_hold_output.
    rewrite (sat_inside_eq _ _ _ course_limit (- course_limit))
      by (reflexivity || assumption).
    split; [reflexivity | apply anti_windup_unsaturated].
  - rewrite roll_hold_integrator, roll_hold_output.
    rewrite sat_inside by assumption.
    split; [reflexivity | apply anti_windup_unsaturated].
  - rewrite pitch_hold_integrator, pitch_hold_output.
    rewrite sat_inside by assumption.
    split; [reflexivity | apply anti_windup_unsaturated].
  - rewrite airspeed_with_throttle_hold_integrator,
      airspeed_with_throttle_hold_output.
    rewrite sat_inside by assumption.
    split; [reflexivity | apply anti_windup_unsaturated].
  - rewrite altitude_hold_control_integrator, altitude_hold_control_output.
    rewrite (sat_inside_eq _ _ _ altitude_limit (- altitude_limit))
      by (reflexivity || assumption).
    split; [reflexivity | apply anti_windup_unsaturated].
Qed.

Lemma unsaturated_tick_witness :
  fst (pitch_hold 0.1 0 0 sample_params 0.01 zero_state)
  = - pitch_effort 0.1 0 0 sample_params (pitch_integrated 0.1 0 0.01 zero_state)
  /\ p_integrator_ (snd (pitch_hold 0.1 0 0 sample_params 0.01 zero_state))
     == p_integrator_ (pitch_integrated 0.1 0 0.01 zero_state).
Proof.
  assert (Hin : in_range (- max_e sample_params) (max_e sample_params)
                  (pitch_effort 0.1 0 0 sample_params
                     (pitch_integrated 0.1 0 0.01 zero_state)))
    by (split; vm_compute; discriminate).
  destruct (unsaturated_tick sample_params 0.01 zero_state)
    as (_ & _ & Hpitch & _).
  exact (Hpitch 0.1 0 0 Hin).
Defined.

(** X14.  The roll loop with no roll error, no roll rate, and a zero previous
    error and integrator returns a zero aileron command and stores a zero
    previous error and integrator, when [max_a] is not negative; the course
    loop does the same with no course error, no yaw rate and no
    feed-forward roll. *)
Theorem lateral_loops_at_rest params Ts s :
  (0 <= max_a params -> r_error_ s == 0 -> r_integrator s == 0 ->
   forall phi,
     fst (roll_hold phi phi 0 params Ts s) == 0
     /\ r_error_ (snd (roll_hold phi phi 0 params Ts s)) == 0
     /\ r_integrator (snd (roll_hold phi phi 0 params Ts s)) == 0)
  /\ (c_error_ s == 0 -> c_integrator_ s == 0 ->
      forall chi,
        fst (course_hold chi chi 0 0 params Ts s) == 0
        /\ c_error_ (snd (course_hold chi chi 0 0 params Ts s)) == 0
        /\ c_integrator_ (snd (course_hold chi chi 0 0 params Ts s)) == 0).
Proof.
  split.
  - intros Hm He Hi phi.
    assert (Hint : r_integrator (roll_integrated phi phi Ts s) == 0).
    { unfold roll_integrated, trapezoid. state_simpl. rewrite He, Hi. ring. }
    assert (Hu : roll_effort phi phi 0 params (roll_integrated phi phi Ts s) == 0).
    { unfold roll_effort. rewrite Hint. ring. }
    assert (Hin : in_range (- max_a params) (max_a params)
                    (roll_effort phi phi 0 params (roll_integrated phi phi Ts s))).
    { unfold in_range. rewrite Hu. lra. }
    rewrite roll_hold_integrator, roll_hold_output, (sat_inside _ _ _ Hin).
    rewrite anti_windup_unsaturated.
    repeat split; try assumption.
    unfold roll_hold. destruct (fabs_ge (r_ki params) 0.00001); state_simpl; ring.
  - intros He Hi chi.
    assert (Hint : c_integrator_ (course_integrated chi chi Ts s) == 0).
    { unfold course_integrated, trapezoid. state_simpl. rewrite He, Hi. ring. }
    assert (Hu : course_effort chi chi 0 0 params (course_integrated chi chi Ts s)
                 == 0).
    { unfold course_effort. rewrite Hint. ring. }
    assert (Hin : in_range (- course_limit) course_limit
                    (course_effort chi chi 0 0 params
                       (course_integrated chi chi Ts s))).
    { unfold in_range. rewrite Hu. split; vm_compute; discriminate. }
    rewrite course_hold_integrator, course_hold_output.
    rewrite (sat_inside_eq _ _ _ course_limit (- course_limit))
      by (reflexivity || assumption).
    rewrite anti_windup_unsaturated.
    repeat split; try assumption.
    unfold course_hold. destruct (fabs_ge (c_ki params) 0.00001); state_simpl; ring.
Qed.

Lemma lateral_loops_at_rest_witness :
  fst (roll_hold 0.2 0.2 0 sample_params 0.01 zero_state) == 0
  /\ r_error_ (snd (roll_hold 0.2 0.2 0 sample_params 0.01 zero_state)) == 0
  /\ r_integrator (snd (roll_hold 0.2 0.2 0 sample_params 0.01 zero_state)) == 0.
Proof.
  assert (Hm : 0 <= max_a sample_params) by (vm_compute; discriminate).
  assert (He : r_error_ zero_state == 0) by reflexivity.
  assert (Hi : r_integrator zero_state == 0) by reflexivity.
  exact (proj1 (lateral_loops_at_rest sample_params 0.01 zero_state) Hm He Hi 0.2).
Defined.

(** ** Anti-windup between the clamped and the unsaturated effort *)





(** * Further properties of [param_manager.cpp] *)

Example set_parameters_sample :
  fst (set_parameters sample_node sample_manager) = returns tt
  /\ params_ (snd (set_parameters sample_node sample_manager)) !! "alt_hz"
     = Some (v_double 25)
  /\ params_ (snd (set_parameters sample_node sample_manager)) !! "max_t"
     = Some (v_double 1)
  /\ keys_in_order (params_ sample_manager) = ["alt_hz"; "max_t"].
Proof. repeat split; vm_compute; reflexivity. Qed.

(** ** The getters *)

Lemma subscript_declared vi (name : string) (pm : param_manager) (v : param_variant) :
  params_ pm !! name = Some v -> subscript vi name pm = (v, pm).
Proof. intros H. unfold subscript. now rewrite H. Qed.

(** X16.  A getter called on a declared name of its own type returns the stored
    value and changes neither the map nor the error stream: the value given
    to a declaration is the value read back. *)
Theorem getters_return_stored_value vi (name : string) (pm : param_manager) :
  (forall d, params_ pm !! name = Some (v_double d) ->
             get_double vi name pm = (returns d, pm))
  /\ (forall b, params_ pm !! name = Some (v_bool b) ->
                get_bool vi name pm = (returns b, pm))
  /\ (forall z, params_ pm !! name = Some (v_int64 z) ->
                get_int vi name pm = (returns z, pm))
  /\ (forall str, params_ pm !! name = Some (v_string str) ->
                  get_string vi name pm = (returns str, pm))
  /\ (forall d, fst (get_double vi name (declare_param name (v_double d) pm))
                = returns d).
Proof.
  repeat split; intros.
  - unfold get_double. now rewrite (subscript_declared _ _ _ _ H).
  - unfold get_bool. now rewrite (subscript_declared _ _ _ _ H).
  - unfold get_int. now rewrite (subscript_declared _ _ _ _ H).
  - unfold get_string. now rewrite (subscript_declared _ _ _ _ H).
  - unfold get_double.
    rewrite (subscript_declared _ _ _ (v_double d)); [reflexivity|].
    unfold declare_param. cbn. apply lookup_insert_eq.
Qed.

Lemma getters_return_stored_value_witness :
  get_double (v_double 0) "alt_hz" sample_manager = (returns 10, sample_manager).
Proof.
  assert (H : params_ sample_manager !! "alt_hz" = Some (v_double 10))
    by (vm_compute; reflexivity).
  exact (proj1 (getters_return_stored_value (v_double 0) "alt_hz" sample_manager)
           10 H).
Defined.

(** X17.  A getter called on a declared name that holds a value of another type
    throws [runtime_error], after one line on the error stream that names
    the parameter; the map is as it was. *)
Theorem getters_throw_on_other_type vi (name : string) (pm : param_manager)
    (v : param_variant) :
  params_ pm !! name = Some v ->
  let failed :=
    RCLCPP_ERROR_STREAM ("ERROR GETTING PARAMETER: " +:+ name) pm in
  ((forall d, v <> v_double d) ->
   get_double vi name pm = (throws (runtime_error "error"), failed))
  /\ ((forall b, v <> v_bool b) ->
      get_bool vi name pm = (throws (runtime_error "error"), failed))
  /\ ((forall z, v <> v_int64 z) ->
      get_int vi name pm = (throws (runtime_error "error"), failed))
  /\ ((forall str, v <> v_string str) ->
      get_string vi name pm = (throws (runtime_error "error"), failed))
  /\ params_ failed = params_ pm.
Proof.
  intros Hv failed. subst failed.
  unfold get_double, get_bool, get_int, get_string.
  rewrite (subscript_declared _ _ _ _ Hv).
  repeat split; intros Hne; destruct v; try reflexivity;
    exfalso; eapply Hne; reflexivity.
Qed.

Lemma getters_throw_on_other_type_witness :
  get_bool (v_double 0) "alt_hz" sample_manager
  = (throws (runtime_error "error"),
     RCLCPP_ERROR_STREAM ("ERROR GETTING PARAMETER: " +:+ "alt_hz") sample_manager).
Proof.
  assert (H : params_ sample_manager !! "alt_hz" = Some (v_double 10))
    by (vm_compute; reflexivity).
  assert (Hne : forall b, v_double 10 <> v_bool b) by (intros b; discriminate).
  exact (proj1 (proj2 (getters_throw_on_other_type (v_double 0) "alt_hz"
                         sample_manager (v_double 10) H)) Hne).
Defined.

Lemma subscript_params vi (name : string) (pm : param_manager) :
  params_ (snd (subscript vi name pm))
  = match params_ pm !! name with
    | Some _ => params_ pm
    | None => <[name := vi]> (params_ pm)
    end.
Proof. unfold subscript. destruct (params_ pm !! name); reflexivity. Qed.

Lemma getters_params vi (name : string) (pm : param_manager) :
  params_ (snd (get_double vi name pm)) = params_ (snd (subscript vi name pm))
  /\ params_ (snd (get_bool vi name pm)) = params_ (snd (subscript vi name pm))
  /\ params_ (snd (get_int vi name pm)) = params_ (snd (subscript vi name pm))
  /\ params_ (snd (get_string vi name pm)) = params_ (snd (subscript vi name pm)).
Proof.
  unfold get_double, get_bool, get_int, get_string.
  destruct (subscript vi name pm) as [v pm']. cbn [snd].
  repeat split; destruct v; reflexivity.
Qed.

(** X18.  A getter called on a name that was never declared adds the name to the
    map, with the value-initialised variant, whether it returns or throws;
    every other entry is as it was.  [set_parameters_callback] then accepts
    a parameter of that name, which it refused before the call. *)
Theorem getters_declare_missing_name vi (name : string) (pm : param_manager) :
  params_ pm !! name = None ->
  params_ (snd (get_double vi name pm)) = <[name := vi]> (params_ pm)
  /\ params_ (snd (get_bool vi name pm)) = <[name := vi]> (params_ pm)
  /\ params_ (snd (get_int vi name pm)) = <[name := vi]> (params_ pm)
  /\ params_ (snd (get_string vi name pm)) = <[name := vi]> (params_ pm)
  /\ forall pm' param,
       params_ pm' = <[name := vi]> (params_ pm) ->
       get_name param = name ->
       declared name pm'
       /\ fst (set_parameters_callback [param] pm) = false
       /\ fst (set_parameters_callback [param] pm') = true.
Proof.
  intros Hnone.
  destruct (getters_params vi name pm) as (Hdouble & Hbool & Hint & Hstring).
  rewrite subscript_params, Hnone in Hdouble, Hbool, Hint, Hstring.
  split; [exact Hdouble|]. split; [exact Hbool|].
  split; [exact Hint|]. split; [exact Hstring|].
  intros pm' param Hpm' <-.
  assert (Hlook : params_ pm' !! get_name param = Some vi)
    by (rewrite Hpm'; apply lookup_insert_eq).
  split; [unfold declared; rewrite Hlook; eauto|].
  cbn [set_parameters_callback]. rewrite Hnone, Hlook. split; reflexivity.
Qed.

Lemma getters_declare_missing_name_witness :
  declared "unknown" (snd (get_double (v_double 0) "unknown" sample_manager))
  /\ fst (set_parameters_callback [set_unknown] sample_manager) = false
  /\ fst (set_parameters_callback [set_unknown]
            (snd (get_double (v_double 0) "unknown" sample_manager))) = true.
Proof.
  assert (H : params_ sample_manager !! "unknown" = None)
    by (vm_compute; reflexivity).
  destruct (getters_declare_missing_name (v_double 0) "unknown" sample_manager H)
    as (Hdouble & _ & _ & _ & Hcb).
  exact (Hcb _ set_unknown Hdouble eq_refl).
Defined.

(** ** The callback: names, order and the error stream *)

Lemma set_parameters_callback_names (parameters : list rclcpp_Parameter)
    (pm : param_manager) (name : string) :
  declared name (snd (set_parameters_callback parameters pm)) <-> declared name pm.
Proof.
  revert pm. induction parameters as [|param rest IH]; intros pm.
  - reflexivity.
  - cbn [set_parameters_callback].
    destruct (params_ pm !! get_name param) as [v|] eqn:Hv.
    + rewrite IH. apply store_parameter_declared.
      unfold declared. rewrite Hv. eauto.
    + reflexivity.
Qed.

(** X19.  The callback never declares a name and never removes one: after any
    vector, whatever the return value, the declared names are the ones
    declared before. *)
Theorem set_parameters_callback_keeps_names (parameters : list rclcpp_Parameter)
    (pm : param_manager) :
  dom (params_ (snd (set_parameters_callback parameters pm))) = dom (params_ pm).
Proof.
  apply set_eq. intros name. rewrite !elem_of_dom.
  apply set_parameters_callback_names.
Qed.

(** X20.  The entry of a name that no parameter of the vector carries is as it
    was, whatever the return value. *)
Theorem set_parameters_callback_other_names (parameters : list rclcpp_Parameter)
    (pm : param_manager) (name : string) :
  Forall (fun param => get_name param ≠ name) parameters ->
  params_ (snd (set_parameters_callback parameters pm)) !! name
  = params_ pm !! name.
Proof.
  revert pm. induction parameters as [|param rest IH]; intros pm Hall.
  - reflexivity.
  - apply Forall_cons in Hall as [Hparam Hrest].
    cbn [set_parameters_callback].
    destruct (params_ pm !! get_name param) as [v|] eqn:Hv; [|reflexivity].
    rewrite (IH _ Hrest), store_parameter_params.
    destruct (stored_value param); [|reflexivity].
    now apply lookup_insert_ne.
Qed.

Lemma set_parameters_callback_other_names_witness :
  params_ (snd (set_parameters_callback [set_alt_hz; set_unknown] sample_manager))
  !! "max_t" = params_ sample_manager !! "max_t".
Proof.
  assert (Hall : Forall (fun param => get_name param ≠ "max_t")
                   [set_alt_hz; set_unknown]).
  { repeat constructor; cbn; discriminate. }
  exact (set_parameters_callback_other_names _ sample_manager "max_t" Hall).
Defined.

(** X21.  A vector in two parts: when the callback returns true on the first
    part, the whole vector gives what the second part gives on the manager
    that the first part left; when it returns false on the first part, the
    second part is not looked at. *)
Theorem set_parameters_callback_app (first second : list rclcpp_Parameter)
    (pm : param_manager) :
  (fst (set_parameters_callback first pm) = true ->
   set_parameters_callback (first ++ second) pm
   = set_parameters_callback second (snd (set_parameters_callback first pm)))
  /\ (fst (set_parameters_callback first pm) = false ->
      set_parameters_callback (first ++ second) pm
      = set_parameters_callback first pm).
Proof.
  revert pm. induction first as [|param rest IH]; intros pm.
  - split; [reflexivity | discriminate].
  - cbn [app set_parameters_callback].
    destruct (params_ pm !! get_name param) as [v|].
    + apply IH.
    + split; [discriminate | reflexivity].
Qed.

Lemma set_parameters_callback_app_witness :
  set_parameters_callback ([set_alt_hz] ++ [set_max_t]) sample_manager
  = set_parameters_callback [set_max_t]
      (snd (set_parameters_callback [set_alt_hz] sample_manager)).
Proof.
  assert (H : fst (set_parameters_callback [set_alt_hz] sample_manager) = true)
    by reflexivity.
  exact (proj1 (set_parameters_callback_app [set_alt_hz] [set_max_t]
                  sample_manager) H).
Defined.

Lemma store_parameter_error_stream (param : rclcpp_Parameter) (pm : param_manager) :
  is_Some (stored_value param) ->
  error_stream (store_parameter param pm) = error_stream pm.
Proof.
  unfold store_parameter, stored_value.
  destruct (get_parameter_value param); intros [v Hv];
    reflexivity || discriminate.
Qed.

(** X22.  The error stream: a vector of declared names whose values all have one
    of the four stored types adds no line; a false return adds, as its last
    line, the line that names the first parameter that is not declared. *)
Theorem set_parameters_callback_error_stream (parameters : list rclcpp_Parameter)
    (pm : param_manager) :
  (fst (set_parameters_callback parameters pm) = true ->
   Forall (fun param => is_Some (stored_value param)) parameters ->
   error_stream (snd (set_parameters_callback parameters pm)) = error_stream pm)
  /\ (fst (set_parameters_callback parameters pm) = false ->
      exists param,
        param ∈ parameters /\ ~ declared (get_name param) pm
        /\ last (error_stream (snd (set_parameters_callback parameters pm)))
           = Some (not_a_parameter (get_name param))).
Proof.
  revert pm. induction parameters as [|param rest IH]; intros pm.
  - split; [reflexivity | discriminate].
  - cbn [set_parameters_callback].
    destruct (params_ pm !! get_name param) as [v|] eqn:Hv.
    + destruct (IH (store_parameter param pm)) as [IHtrue IHfalse]. split.
      * intros Htrue Hall. apply Forall_cons in Hall as [Hparam Hrest].
        rewrite (IHtrue Htrue Hrest). now apply store_parameter_error_stream.
      * intros Hfalse. destruct (IHfalse Hfalse) as (param' & Hin & Hnot & Hlast).
        exists param'. split; [now right|]. split; [|exact Hlast].
        intros Hd. apply Hnot. apply store_parameter_declared; [|exact Hd].
        unfold declared. rewrite Hv. eauto.
    + split; [discriminate|]. intros _. exists param.
      split; [now left|]. split.
      * unfold declared. rewrite Hv. intros [? ?]. discriminate.
      * cbn. apply last_snoc.
Qed.

Lemma set_parameters_callback_error_stream_witness :
  error_stream (snd (set_parameters_callback [set_alt_hz; set_max_t] sample_manager))
  = error_stream sample_manager.
Proof.
  assert (Htrue : fst (set_parameters_callback [set_alt_hz; set_max_t]
                         sample_manager) = true) by reflexivity.
  assert (Hall : Forall (fun param => is_Some (stored_value param))
                   [set_alt_hz; set_max_t]).
  { repeat constructor; cbn; eauto. }
  exact (proj1 (set_parameters_callback_error_stream _ sample_manager) Htrue Hall).
Defined.

(** X23.  A value set through the callback is the value read back: after a
    vector of declared names, the getter of a double returns the value of
    the last parameter of its name when that parameter is a double, and
    leaves the manager as the callback left it. *)
Theorem set_then_get_double vi (pre post : list rclcpp_Parameter)
    (param : rclcpp_Parameter) (d : Q) (pm : param_manager) :
  Forall (fun param' => declared (get_name param') pm) (pre ++ param :: post) ->
  get_parameter_value param = double_value d ->
  Forall (fun param' => get_name param' ≠ get_name param) post ->
  get_double vi (get_name param)
    (snd (set_parameters_callback (pre ++ param :: post) pm))
  = (returns d, snd (set_parameters_callback (pre ++ param :: post) pm)).
Proof.
  intros Hall Hvalue Hpost.
  destruct (set_parameters_callback_declared _ pm Hall) as [_ Hparams].
  unfold get_double. rewrite (subscript_declared _ _ _ (v_double d)); [reflexivity|].
  rewrite Hparams. apply apply_parameters_last; [|exact Hpost].
  unfold stored_value. now rewrite Hvalue.
Qed.

Lemma set_then_get_double_witness :
  get_double (v_double 0) (get_name set_alt_hz)
    (snd (set_parameters_callback ([] ++ set_alt_hz :: [set_max_t]) sample_manager))
  = (returns 20,
     snd (set_parameters_callback ([] ++ set_alt_hz :: [set_max_t]) sample_manager)).
Proof.
  assert (Hall : Forall (fun param' => declared (get_name param') sample_manager)
                   ([] ++ set_alt_hz :: [set_max_t])).
  { repeat constructor; unfold declared; vm_compute; eauto. }
  assert (Hpost : Forall (fun param' => get_name param' ≠ get_name set_alt_hz)
                    [set_max_t]).
  { repeat constructor; cbn; discriminate. }
  exact (set_then_get_double (v_double 0) [] [set_max_t] set_alt_hz 20
           sample_manager Hall eq_refl Hpost).
Defined.

(** ** [set_parameters] *)

Lemma refresh_parameter_returns (node : string -> option ParameterValue)
    (key : string) (value : ParameterValue) (pm : param_manager) :
  node key = Some value ->
  fst (refresh_parameter node key pm) = returns tt
  /\ forall k,
       params_ (snd (refresh_parameter node key pm)) !! k
       = if decide (k = key) then refreshed_entry value (params_ pm !! key)
         else params_ pm !! k.
Proof.
  intros Hnode. unfold refresh_parameter, get_parameter. rewrite Hnode.
  cbn [get_parameter_value].
  destruct value; (split; [reflexivity|]); intros k; cbn [snd params_ set_params_
    RCLCPP_ERROR_STREAM refreshed_entry];
    destruct (decide (k = key)) as [->|Hne];
    try reflexivity;
    try apply lookup_insert_eq; try (apply lookup_insert_ne; congruence).
Qed.

Lemma refreshed_entry_twice (value : ParameterValue) (o : option param_variant) :
  refreshed_entry value (refreshed_entry value o) = refreshed_entry value o.
Proof. destruct value; reflexivity. Qed.

Lemma refresh_parameters_returns (node : string -> option ParameterValue)
    (keys : list string) (pm : param_manager) :
  Forall (fun key => is_Some (node key)) keys ->
  fst (refresh_parameters node keys pm) = returns tt
  /\ forall k,
       params_ (snd (refresh_parameters node keys pm)) !! k
       = if decide (k ∈ keys)
         then match node k with
              | Some value => refreshed_entry value (params_ pm !! k)
              | None => params_ pm !! k
              end
         else params_ pm !! k.
Proof.
  revert pm. induction keys as [|key rest IH]; intros pm Hall.
  - split; [reflexivity|]. intros k. cbn [refresh_parameters snd].
    destruct (decide (k ∈ [])) as [Hin|]; [|reflexivity].
    now apply elem_of_nil in Hin.
  - apply Forall_cons in Hall as [[value Hvalue] Hrest].
    destruct (refresh_parameter_returns node key value pm Hvalue) as [Hret Hlook].
    cbn [refresh_parameters].
    destruct (refresh_parameter node key pm) as [[u|e] pm1]; [|discriminate Hret].
    cbn [snd] in Hlook.
    destruct (IH pm1 Hrest) as [IHret IHlook].
    split; [exact IHret|]. intros k. rewrite IHlook, !Hlook.
    destruct (decide (k = key)) as [->|Hne].
    + rewrite Hvalue, refreshed_entry_twice.
      rewrite (decide_True (P := key ∈ key :: rest)) by apply list_elem_of_here.
      destruct (decide (key ∈ rest)); reflexivity.
    + destruct (decide (k ∈ rest)) as [Hin|Hnin].
      * rewrite decide_True by (now apply list_elem_of_further). reflexivity.
      * rewrite decide_False; [reflexivity|].
        intros Hin. apply elem_of_cons in Hin as [?|?]; contradiction.
Qed.

Lemma elem_of_keys_in_order (m : gmap string param_variant) (key : string) :
  key ∈ keys_in_order m <-> is_Some (m !! key).
Proof.
  unfold keys_in_order. rewrite merge_sort_Permutation, list_elem_of_fmap.
  split.
  - intros ([k v] & -> & Hin). apply elem_of_map_to_list in Hin. eauto.
  - intros [v Hv]. exists (key, v). split; [reflexivity|].
    now apply elem_of_map_to_list.
Qed.

Lemma set_parameters_returns (node : string -> option ParameterValue)
    (pm : param_manager) :
  (forall key, declared key pm -> is_Some (node key)) ->
  fst (set_parameters node pm) = returns tt
  /\ forall key,
       params_ (snd (set_parameters node pm)) !! key
       = match params_ pm !! key, node key with
         | Some old, Some value => Some (refreshed value old)
         | entry, _ => entry
         end.
Proof.
  intros Hnode. unfold set_parameters.
  assert (Hall : Forall (fun key => is_Some (node key)) (keys_in_order (params_ pm))).
  { apply Forall_forall. intros key Hin. apply Hnode.
    now apply elem_of_keys_in_order. }
  destruct (refresh_parameters_returns node _ pm Hall) as [Hret Hlook].
  split; [exact Hret|]. intros key. rewrite Hlook.
  destruct (decide (key ∈ keys_in_order (params_ pm))) as [Hin|Hnin].
  - apply elem_of_keys_in_order in Hin as [old Hold]. rewrite Hold.
    destruct (node key) as [value|]; [|reflexivity].
    destruct value; reflexivity.
  - destruct (params_ pm !! key) as [old|] eqn:Hold; [|reflexivity].
    exfalso. apply Hnin, elem_of_keys_in_order. eauto.
Qed.

Lemma set_parameters_declared (node : string -> option ParameterValue)
    (pm : param_manager) (key : string) :
  (forall key, declared key pm -> is_Some (node key)) ->
  declared key (snd (set_parameters node pm)) <-> declared key pm.
Proof.
  intros Hnode. destruct (set_parameters_returns node pm Hnode) as [_ Hlook].
  unfold declared. rewrite Hlook.
  destruct (params_ pm !! key) as [old|]; [|reflexivity].
  destruct (node key); split; eauto.
Qed.

(** X24.  When the node holds a parameter for every declared name,
    [set_parameters] returns, and afterwards the declared names are the
    same and the entry of each is the value the node holds when that value
    has one of the four stored types, and the entry as it was otherwise. *)
Theorem set_parameters_refreshes (node : string -> option ParameterValue)
    (pm : param_manager) :
  (forall key, declared key pm -> is_Some (node key)) ->
  fst (set_parameters node pm) = returns tt
  /\ dom (params_ (snd (set_parameters node pm))) = dom (params_ pm)
  /\ forall key,
       params_ (snd (set_parameters node pm)) !! key
       = match params_ pm !! key, node key with
         | Some old, Some value => Some (refreshed value old)
         | entry, _ => entry
         end.
Proof.
  intros Hnode. destruct (set_parameters_returns node pm Hnode) as [Hret Hlook].
  split; [exact Hret|]. split; [|exact Hlook].
  apply set_eq. intros key. rewrite !elem_of_dom.
  now apply set_parameters_declared.
Qed.

Lemma set_parameters_refreshes_witness :
  fst (set_parameters sample_node sample_manager) = returns tt
  /\ params_ (snd (set_parameters sample_node sample_manager)) !! "alt_hz"
     = match params_ sample_manager !! "alt_hz", sample_node "alt_hz" with
       | Some old, Some value => Some (refreshed value old)
       | entry, _ => entry
       end.
Proof.
  assert (Hnode : forall key, declared key sample_manager ->
                              is_Some (sample_node key)).
  { intros key [v Hv]. unfold sample_manager, declare_param in Hv. cbn in Hv.
    apply lookup_insert_Some in Hv as [[<- _]|[_ Hv]]; [cbn; eauto|].
    apply lookup_insert_Some in Hv as [[<- _]|[_ Hv]]; [cbn; eauto|].
    now rewrite lookup_empty in Hv. }
  destruct (set_parameters_refreshes sample_node sample_manager Hnode)
    as (Hret & _ & Hlook).
  split; [exact Hret | exact (Hlook "alt_hz")].
Defined.

(** X25.  Running [set_parameters] a second time against the same node changes
    no entry. *)
Theorem set_parameters_idempotent (node : string -> option ParameterValue)
    (pm : param_manager) :
  (forall key, declared key pm -> is_Some (node key)) ->
  params_ (snd (set_parameters node (snd (set_parameters node pm))))
  = params_ (snd (set_parameters node pm)).
Proof.
  intros Hnode.
  assert (Hnode' : forall key, declared key (snd (set_parameters node pm)) ->
                               is_Some (node key)).
  { intros key Hd. apply Hnode. now apply (set_parameters_declared node pm key). }
  destruct (set_parameters_returns node pm Hnode) as [_ Hlook].
  destruct (set_parameters_returns node _ Hnode') as [_ Hlook'].
  apply map_eq. intros key. rewrite Hlook', Hlook.
  destruct (params_ pm !! key) as [old|]; [|reflexivity].
  destruct (node key) as [value|]; [|reflexivity].
  destruct value; reflexivity.
Qed.

Lemma set_parameters_idempotent_witness :
  params_ (snd (set_parameters sample_node
                  (snd (set_parameters sample_node sample_manager))))
  = params_ (snd (set_parameters sample_node sample_manager)).
Proof.
  assert (Hnode : forall key, declared key sample_manager ->
                              is_Some (sample_node key)).
  { intros key [v Hv]. unfold sample_manager, declare_param in Hv. cbn in Hv.
    apply lookup_insert_Some in Hv as [[<- _]|[_ Hv]]; [cbn; eauto|].
    apply lookup_insert_Some in Hv as [[<- _]|[_ Hv]]; [cbn; eauto|].
    now rewrite lookup_empty in Hv. }
  exact (set_parameters_idempotent sample_node sample_manager Hnode).
Defined.

Lemma refresh_parameters_throws (node : string -> option ParameterValue)
    (keys : list string) (pm : param_manager) :
  (exists key, key ∈ keys /\ node key = None) ->
  exists key,
    key ∈ keys /\ node key = None
    /\ fst (refresh_parameters node keys pm)
       = throws (ParameterNotDeclaredException key).
Proof.
  revert pm. induction keys as [|key rest IH]; intros pm (missing & Hin & Hnone).
  - now apply elem_of_nil in Hin.
  - cbn [refresh_parameters].
    destruct (node key) as [value|] eqn:Hvalue.
    + destruct (refresh_parameter_returns node key value pm Hvalue) as [Hret _].
      destruct (refresh_parameter node key pm) as [[u|e] pm1]; [|discriminate Hret].
      apply elem_of_cons in Hin as [->|Hin]; [congruence|].
      destruct (IH pm1) as (key' & Hin' & Hnone' & Hthrows); [eauto|].
      exists key'. split; [now apply list_elem_of_further|]. split; assumption.
    + exists key. split; [apply list_elem_of_here|]. split; [exact Hvalue|].
      unfold refresh_parameter, get_parameter. now rewrite Hvalue.
Qed.

(** X26.  When the node holds no parameter for some declared name,
    [set_parameters] throws [ParameterNotDeclaredException] for a declared
    name that the node does not hold.  A name that a getter added to the
    map is such a name. *)
Theorem set_parameters_throws (node : string -> option ParameterValue)
    (pm : param_manager) (missing : string) :
  declared missing pm -> node missing = None ->
  exists key,
    declared key pm /\ node key = None
    /\ fst (set_parameters node pm) = throws (ParameterNotDeclaredException key).
Proof.
  intros Hd Hnone. unfold set_parameters.
  destruct (refresh_parameters_throws node (keys_in_order (params_ pm)) pm)
    as (key & Hin & Hkey & Hthrows).
  { exists missing. split; [now apply elem_of_keys_in_order | exact Hnone]. }
  exists key. split; [now apply elem_of_keys_in_order|]. split; assumption.
Qed.

Lemma set_parameters_throws_witness :
  exists key,
    declared key (snd (get_double (v_double 0) "unknown" sample_manager))
    /\ sample_node key = None
    /\ fst (set_parameters sample_node
              (snd (get_double (v_double 0) "unknown" sample_manager)))
       = throws (ParameterNotDeclaredException key).
Proof.
  assert (Hd : declared "unknown"
                 (snd (get_double (v_double 0) "unknown" sample_manager)))
    by (unfold declared; vm_compute; eauto).
  assert (Hnone : sample_node "unknown" = None) by reflexivity.
  exact (set_parameters_throws sample_node _ "unknown" Hd Hnone).
Defined.
